(** * Duplicate resolution for a photo export: a shallow embedding of
      [remove_duplicates.py]

    The development follows the script top-down: Python strings and the
    [os.path] helpers it calls, the regular expressions of the sidecar
    lookup, the values produced by [json.load], the grouping walk, the
    matcher and finally the remover.

    Modelling conventions.
    - A Python [str] is a [string] whose characters are the code points
      below U+0100, the Latin-1 range; the upper-case letters among them
      are [A]-[Z], U+00C0-U+00D6 and U+00D8-U+00DE, each 32 below its
      lower-case letter, and on this range [str.lower] and
      [re.IGNORECASE] fold exactly these.  A [bytes] object is a
      [string] too, its characters being the bytes.
    - Paths follow [posixpath]: the separator is [/].
    - An exception is a value of [exn]; a function that can raise returns
      a [result]. *)

From Stdlib Require Import ZArith Ascii String List Bool Lia DecimalString.
From stdpp Require Import base tactics option list strings gmap sets.

Local Open Scope string_scope.
Local Open Scope list_scope.

(** ** Exceptions *)

Inductive exn : Type :=
| JSONDecodeError
| KeyError (key : string)
| TypeError
| FileNotFoundError
| PermissionError
| OSError.

(** [except (IOError, OSError)]: [IOError] is [OSError], and the two
    named errors are subclasses of it. *)
Definition is_OSError (e : exn) : bool :=
  match e with
  | FileNotFoundError | PermissionError | OSError => true
  | JSONDecodeError | KeyError _ | TypeError => false
  end.

Inductive result (A : Type) : Type :=
| Ok (a : A)
| Raise (e : exn).
Arguments Ok {A} a.
Arguments Raise {A} e.

Definition bind {A B : Type} (m : result A) (k : A -> result B) : result B :=
  match m with
  | Ok a => k a
  | Raise e => Raise e
  end.

Notation "'let*' x ':=' m 'in' k" := (bind m (fun x => k))
  (at level 10, x name, m at level 100, k at level 200).

(** ** Python strings *)

Module Str.

Definition chars (s : string) : list ascii := list_ascii_of_string s.
Definition of_chars (l : list ascii) : string := string_of_list_ascii l.

Definition nl : ascii := ascii_of_nat 10.
Definition backslash : ascii := ascii_of_nat 92.
Definition dquote : ascii := ascii_of_nat 34.
Definition squote : ascii := ascii_of_nat 39.

(** The code points with a lower-case letter of their own: [A]-[Z],
    U+00C0-U+00D6 and U+00D8-U+00DE (U+00D7 is the multiplication
    sign). *)
Definition is_upper (c : ascii) : bool :=
  let n := nat_of_ascii c in
  (65 <=? n)%nat && (n <=? 90)%nat
  || (192 <=? n)%nat && (n <=? 214)%nat
  || (216 <=? n)%nat && (n <=? 222)%nat.

Definition is_digit (c : ascii) : bool :=
  (48 <=? nat_of_ascii c)%nat && (nat_of_ascii c <=? 57)%nat.

Definition lower_char (c : ascii) : ascii :=
  if is_upper c then ascii_of_nat (nat_of_ascii c + 32) else c.

(** [s.lower()] *)
Definition lower (s : string) : string := of_chars (map lower_char (chars s)).

(** [s.encode('utf-8')]: a code point from U+0080 on takes two bytes. *)
Definition utf8_char (c : ascii) : list ascii :=
  let n := nat_of_ascii c in
  if (n <? 128)%nat then [c]
  else [ascii_of_nat (192 + n / 64); ascii_of_nat (128 + n mod 64)].

Definition encode_utf8 (s : string) : string :=
  of_chars (flat_map utf8_char (chars s)).

Fixpoint has_prefix (p s : list ascii) : bool :=
  match p, s with
  | [], _ => true
  | c :: p', d :: s' => Ascii.eqb c d && has_prefix p' s'
  | _ :: _, [] => false
  end.

(** [s.endswith(suffix)] *)
Definition endswith (s suffix : string) : bool :=
  has_prefix (rev (chars suffix)) (rev (chars s)).

(** [needle in haystack] for two strings *)
Fixpoint is_substring (needle haystack : list ascii) : bool :=
  has_prefix needle haystack ||
  match haystack with
  | [] => false
  | _ :: rest => is_substring needle rest
  end.

Fixpoint take_while (f : ascii -> bool) (l : list ascii) : list ascii :=
  match l with
  | d :: r => if f d then d :: take_while f r else []
  | [] => []
  end.

Fixpoint drop_while (f : ascii -> bool) (l : list ascii) : list ascii :=
  match l with
  | d :: r => if f d then drop_while f r else l
  | [] => []
  end.

End Str.

(** ** [os.path] (posixpath) *)

Module Path.

Definition sep : ascii := "/"%char.
Definition extsep : ascii := "."%char.

(** [(p[:i], p[i:])] for [i = p.rfind(c) + 1]; the head is empty when
    [c] does not occur. *)
Fixpoint rsplit_after (c : ascii) (p : list ascii)
  : list ascii * list ascii :=
  match p with
  | [] => ([], [])
  | d :: r =>
      let '(h, t) := rsplit_after c r in
      match h with
      | _ :: _ => (d :: h, t)
      | [] => if Ascii.eqb d c then ([d], r) else ([], d :: r)
      end
  end.

(** [head.rstrip(sep)] *)
Definition rstrip_sep (h : list ascii) : list ascii :=
  rev (Str.drop_while (Ascii.eqb sep) (rev h)).

Definition basename (p : string) : string :=
  Str.of_chars (snd (rsplit_after sep (Str.chars p))).

Definition dirname (p : string) : string :=
  let head := fst (rsplit_after sep (Str.chars p)) in
  Str.of_chars
    (if forallb (Ascii.eqb sep) head then head else rstrip_sep head).

(** [os.path.join(a, b)] for two components *)
Definition join (a b : string) : string :=
  match Str.chars b with
  | c :: _ =>
      if Ascii.eqb c sep then b
      else if Str.endswith a (String sep EmptyString) then a +:+ b
      else match a with
           | EmptyString => b
           | _ => a +:+ String sep b
           end
  | [] =>
      if Str.endswith a (String sep EmptyString) then a
      else match a with
           | EmptyString => EmptyString
           | _ => a +:+ String sep EmptyString
           end
  end.

(** [(p[:i], p[i:])] for [i = p.rfind(extsep)]; everything is root when
    there is no dot. *)
Fixpoint rsplit_before_dot (p : list ascii) : list ascii * list ascii :=
  match p with
  | [] => ([], [])
  | d :: r =>
      let '(root, ext) := rsplit_before_dot r in
      match ext with
      | _ :: _ => (d :: root, ext)
      | [] => if Ascii.eqb d extsep then ([], d :: r) else (d :: r, [])
      end
  end.

(** [genericpath._splitext] on a name: leading dots never start an
    extension. *)
Fixpoint splitext_name (b : list ascii) : list ascii * list ascii :=
  match b with
  | d :: r =>
      if Ascii.eqb d extsep
      then let '(root, ext) := splitext_name r in (d :: root, ext)
      else rsplit_before_dot b
  | [] => ([], [])
  end.

Definition splitext (p : string) : string * string :=
  let '(head, name) := rsplit_after sep (Str.chars p) in
  let '(root, ext) := splitext_name name in
  (Str.of_chars (head ++ root), Str.of_chars ext).

End Path.


(** ** Regular expressions

    Every pattern that the sidecar lookup compiles has the shape
    [^ prefix mid+ suffix $] with [prefix] and [suffix] sequences of
    one-character atoms, so the only way to split a subject string is by
    the lengths of the two sequences.  All of them are compiled with
    [re.IGNORECASE]. *)

Module Re.

Inductive atom : Type :=
| Lit (c : ascii)       (* an escaped or ordinary character *)
| Dot                   (* [.]: any character except a newline *)
| NotParen.             (* the class [[^()]] *)

Definition atom_match (a : atom) (d : ascii) : bool :=
  match a with
  | Lit c => Ascii.eqb (Str.lower_char c) (Str.lower_char d)
  | Dot => negb (Ascii.eqb d Str.nl)
  | NotParen => negb (Ascii.eqb d "("%char) && negb (Ascii.eqb d ")"%char)
  end.

Record pattern : Type :=
  { prefix : list atom; mid : atom; suffix : list atom }.

(** [re.escape(s)]: every character stands for itself. *)
Definition escape (s : string) : list atom := map Lit (Str.chars s).

(** Consume [atoms] at the front of [s]. *)
Fixpoint eat (atoms : list atom) (s : list ascii) : option (list ascii) :=
  match atoms, s with
  | [], _ => Some s
  | a :: atoms', d :: s' => if atom_match a d then eat atoms' s' else None
  | _ :: _, [] => None
  end.

(** The pattern against the whole of [s]. *)
Definition fullmatch (p : pattern) (s : list ascii) : bool :=
  match eat (prefix p) s with
  | Some rest =>
      match eat (rev (suffix p)) (rev rest) with
      | Some (d :: m) => forallb (atom_match (mid p)) (d :: m)
      | Some [] | None => false
      end
  | None => false
  end.

(** [re.match(p, s, re.IGNORECASE)] for an anchored pattern: [$] also
    matches just before a newline that ends the string. *)
Definition re_match (p : pattern) (s : string) : bool :=
  fullmatch p (Str.chars s) ||
  match rev (Str.chars s) with
  | d :: r => Ascii.eqb d Str.nl && fullmatch p (rev r)
  | [] => false
  end.

(** [re.match(r"^(.*?)\((\d+)\)$", s)]: the two groups.  The digits
    and the closing parenthesis contain no opening parenthesis, so the
    split is the one at the last opening parenthesis. *)
Definition counter_groups (s : list ascii) : option (string * string) :=
  match rev s with
  | d :: r =>
      if Ascii.eqb d ")"%char then
        let digits := Str.take_while Str.is_digit r in
        match digits, Str.drop_while Str.is_digit r with
        | _ :: _, o :: g1 =>
            if Ascii.eqb o "("%char && forallb (atom_match Dot) g1
            then Some (Str.of_chars (rev g1), Str.of_chars (rev digits))
            else None
        | _, _ => None
        end
      else None
  | [] => None
  end.

Definition counter_match (s : string) : option (string * string) :=
  match counter_groups (Str.chars s) with
  | Some g => Some g
  | None =>
      match rev (Str.chars s) with
      | d :: r => if Ascii.eqb d Str.nl then counter_groups (rev r) else None
      | [] => None
      end
  end.

End Re.


(** ** Python values

    What [json.load] can return, without floating-point numbers. *)

#[local] Set Warnings "-register-all".

Inductive pyval : Type :=
| PyNone
| PyBool (b : bool)
| PyInt (n : Z)
| PyStr (s : string)
| PyList (items : list pyval)
| PyDict (entries : list (string * pyval)).

Module Py.

(** [bool(v)] *)
Definition truthy (v : pyval) : bool :=
  match v with
  | PyNone => false
  | PyBool b => b
  | PyInt n => negb (Z.eqb n 0)
  | PyStr s => negb (String.eqb s EmptyString)
  | PyList items => match items with [] => false | _ :: _ => true end
  | PyDict entries => match entries with [] => false | _ :: _ => true end
  end.

(** The value stored under [k] in a dict given by its items. *)
Fixpoint lookup (k : string) (entries : list (string * pyval))
  : option pyval :=
  match entries with
  | [] => None
  | (k', v) :: rest => if String.eqb k k' then Some v else lookup k rest
  end.

(** [a == b] *)
Fixpoint eq (a b : pyval) {struct a} : bool :=
  match a, b with
  | PyNone, PyNone => true
  | PyBool x, PyBool y => Bool.eqb x y
  | PyBool x, PyInt n => Z.eqb (Z.b2z x) n
  | PyInt n, PyBool x => Z.eqb n (Z.b2z x)
  | PyInt x, PyInt y => Z.eqb x y
  | PyStr x, PyStr y => String.eqb x y
  | PyList x, PyList y =>
      (fix go (x y : list pyval) {struct x} : bool :=
         match x, y with
         | [], [] => true
         | u :: x', v :: y' => eq u v && go x' y'
         | _, _ => false
         end) x y
  | PyDict x, PyDict y =>
      Nat.eqb (length x) (length y) &&
      (fix go (x : list (string * pyval)) : bool :=
         match x with
         | [] => true
         | (k, u) :: x' =>
             match lookup k y with
             | Some v => eq u v
             | None => false
             end && go x'
         end) x
  | _, _ => false
  end.

(** [k in v] for a string [k] *)
Definition contains (k : string) (v : pyval) : result bool :=
  match v with
  | PyDict entries =>
      Ok (match lookup k entries with Some _ => true | None => false end)
  | PyList items => Ok (existsb (eq (PyStr k)) items)
  | PyStr s => Ok (Str.is_substring (Str.chars k) (Str.chars s))
  | PyNone | PyBool _ | PyInt _ => Raise TypeError
  end.

(** [v[k]] for a string [k] *)
Definition getitem (v : pyval) (k : string) : result pyval :=
  match v with
  | PyDict entries =>
      match lookup k entries with
      | Some x => Ok x
      | None => Raise (KeyError k)
      end
  | _ => Raise TypeError
  end.

Definition hex_digit (n : nat) : ascii :=
  if (n <? 10)%nat then ascii_of_nat (48 + n) else ascii_of_nat (87 + n).

(** One character of [repr(s)]: what is not printable is escaped, which
    below U+0100 are the controls, the no-break space U+00A0 and the soft
    hyphen U+00AD. *)
Definition repr_char (quote : ascii) (c : ascii) : list ascii :=
  let n := nat_of_ascii c in
  if Ascii.eqb c Str.backslash then [Str.backslash; Str.backslash]
  else if Ascii.eqb c quote then [Str.backslash; quote]
  else if (n =? 9)%nat then [Str.backslash; "t"%char]
  else if (n =? 10)%nat then [Str.backslash; "n"%char]
  else if (n =? 13)%nat then [Str.backslash; "r"%char]
  else if (n <? 32)%nat || (127 <=? n)%nat && (n <=? 160)%nat || (n =? 173)%nat
       then [Str.backslash; "x"%char; hex_digit (n / 16); hex_digit (n mod 16)]
  else [c].

(** [repr(s)] of a string: single quotes unless the string has a single
    quote and no double quote. *)
Definition repr_str (s : string) : string :=
  let cs := Str.chars s in
  let quote :=
    if existsb (Ascii.eqb Str.squote) cs
       && negb (existsb (Ascii.eqb Str.dquote) cs)
    then Str.dquote else Str.squote in
  Str.of_chars (quote :: flat_map (repr_char quote) cs ++ [quote]).

Fixpoint join_with (sep : string) (l : list string) : string :=
  match l with
  | [] => EmptyString
  | [x] => x
  | x :: rest => x +:+ sep +:+ join_with sep rest
  end.

Fixpoint repr (v : pyval) : string :=
  match v with
  | PyNone => "None"
  | PyBool true => "True"
  | PyBool false => "False"
  | PyInt n => NilZero.string_of_int (Z.to_int n)
  | PyStr s => repr_str s
  | PyList items => "[" +:+ join_with ", " (map repr items) +:+ "]"
  | PyDict entries =>
      "{" +:+ join_with ", "
                (map (fun kv => repr_str (fst kv) +:+ ": " +:+ repr (snd kv))
                     entries)
          +:+ "}"
  end.

(** [str(v)] *)
Definition str (v : pyval) : string :=
  match v with
  | PyStr s => s
  | _ => repr v
  end.

End Py.


(** ** The file system, as the script reads it *)

Record filesystem : Type :=
  { (** [os.walk(top)]: the [(root, files)] of every directory visited *)
    os_walk : string -> list (string * list string);
    (** [os.listdir(directory)] *)
    os_listdir : string -> list string;
    (** [os.path.exists(path)] *)
    os_path_exists : string -> bool;
    (** [with open(path, "r") as f: json.load(f)]; text that is not JSON
        raises [JSONDecodeError] *)
    json_load : string -> result pyval }.

(** ** Sidecar lookup *)

Definition json_ext : string := ".json".

(** Case 2: [^{re.escape(base_name)}\.[^()]+\.json$] *)
Definition case2 (base_name : string) : Re.pattern :=
  {| Re.prefix := Re.escape base_name ++ [Re.Lit "."%char];
     Re.mid := Re.NotParen;
     Re.suffix := Re.escape json_ext |}.

(** Case 3: [^{re.escape(base_name_without_counter)}\..+?\({counter}\)\.json$] *)
Definition case3 (base_name_without_counter counter : string) : Re.pattern :=
  {| Re.prefix := Re.escape base_name_without_counter ++ [Re.Lit "."%char];
     Re.mid := Re.Dot;
     Re.suffix :=
       Re.Lit "("%char :: Re.escape counter
         ++ Re.Lit ")"%char :: Re.escape json_ext |}.

(** Case 4:
    [^{re.escape(base_name_without_counter)}\({counter}\)\{re.escape(ext)}\..+?\.json$].
    The backslash written before the replacement field meets the
    backslash with which [re.escape] protects the dot that starts [ext]:
    together they stand for one backslash character, and the dot that
    follows is left unescaped.  With an empty [ext] the same happens to
    the escaped dot that follows the field. *)
Definition case4 (base_name_without_counter counter ext : string)
  : Re.pattern :=
  {| Re.prefix :=
       Re.escape base_name_without_counter
         ++ Re.Lit "("%char :: Re.escape counter
         ++ Re.Lit ")"%char :: Re.Lit Str.backslash :: Re.Dot
         :: match ext with
            | EmptyString => []
            | String _ e => Re.escape e ++ [Re.Lit "."%char]
            end;
     Re.mid := Re.Dot;
     Re.suffix := Re.escape json_ext |}.

(** What one directory entry is tested against: the four cases, in the
    order of the loop body. *)
Definition entry_matches (base_name base_name_without_counter ext : string)
  (counter : option string) (file : string) : bool :=
  if String.eqb file (base_name +:+ json_ext) then true
  else if Re.re_match (case2 base_name) file then true
  else if match counter with
          | Some c => Re.re_match (case3 base_name_without_counter c) file
          | None => false
          end then true
  else match counter with
       | Some c => Re.re_match (case4 base_name_without_counter c ext) file
       | None => false
       end.

(** The [for file in os.listdir(directory)] loop. *)
Fixpoint find_metadata_loop (directory base_name base_name_without_counter
  ext : string) (counter : option string) (files : list string)
  : option string :=
  match files with
  | [] => None
  | file :: rest =>
      if Str.endswith file json_ext then
        if String.eqb file (base_name +:+ json_ext)
        then Some (Path.join directory file)
        else if Re.re_match (case2 base_name) file
        then Some (Path.join directory file)
        else if match counter with
                | Some c =>
                    Re.re_match (case3 base_name_without_counter c) file
                | None => false
                end
        then Some (Path.join directory file)
        else if match counter with
                | Some c =>
                    Re.re_match (case4 base_name_without_counter c ext) file
                | None => false
                end
        then Some (Path.join directory file)
        else find_metadata_loop directory base_name
               base_name_without_counter ext counter rest
      else find_metadata_loop directory base_name
             base_name_without_counter ext counter rest
  end.

(** The counter suffix of a media file name, e.g. [(507)]. *)
Definition split_counter (base_name_without_ext : string)
  : string * option string :=
  match Re.counter_match base_name_without_ext with
  | Some (g1, g2) => (g1, Some g2)
  | None => (base_name_without_ext, None)
  end.

Definition find_metadata_file (fs : filesystem) (media_file : string)
  : option string :=
  let base_name := Path.basename media_file in
  let '(base_name_without_ext, ext) := Path.splitext base_name in
  let directory := Path.dirname media_file in
  let '(base_name_without_counter, counter) :=
    split_counter base_name_without_ext in
  find_metadata_loop directory base_name base_name_without_counter ext
    counter (os_listdir fs directory).

Record metadata_file : Type := { path : string; data : pyval }.

Definition load_metadata (fs : filesystem) (media_file : string)
  : result (option metadata_file) :=
  match find_metadata_file fs media_file with
  | Some found =>
      if negb (String.eqb found EmptyString) && os_path_exists fs found
      then let* loaded := json_load fs found in
           Ok (Some {| path := found; data := loaded |})
      else Ok None
  | None => Ok None
  end.

Definition get_photo_taken_time (metadata : pyval) : result pyval :=
  if Py.truthy metadata then
    let* present := Py.contains "photoTakenTime" metadata in
    if present
    then let* taken := Py.getitem metadata "photoTakenTime" in
         Py.getitem taken "timestamp"
    else Ok PyNone
  else Ok PyNone.

(** The title is a key of the grouping: [None] is Python's [None]. *)
Definition get_title (metadata : pyval) : result (option string) :=
  if Py.truthy metadata then
    let* present := Py.contains "title" metadata in
    if present
    then let* title := Py.getitem metadata "title" in
         Ok (Some (Str.lower (Py.str title)))
    else Ok None
  else Ok None.

(** ** Grouping a tree *)

(** The dict built for every media file. *)
Record media_obj : Type :=
  { base_name : string;
    photo_taken_time : pyval;
    file_path : string;
    json_path : string }.

(** [defaultdict(list)]: the keys in insertion order, each with its list. *)
Definition name_to_files : Type := list (option string * list media_obj).

Definition key_eqb (a b : option string) : bool :=
  match a, b with
  | Some x, Some y => String.eqb x y
  | None, None => true
  | _, _ => false
  end.

(** [d[title]] behind the guard [title in d] *)
Fixpoint dict_get (d : name_to_files) (title : option string)
  : option (list media_obj) :=
  match d with
  | [] => None
  | (k, l) :: rest => if key_eqb title k then Some l else dict_get rest title
  end.

(** [d[title].append(obj)] *)
Fixpoint dict_append (d : name_to_files) (title : option string)
  (obj : media_obj) : name_to_files :=
  match d with
  | [] => [(title, [obj])]
  | (k, l) :: rest =>
      if key_eqb title k then (k, l ++ [obj]) :: rest
      else (k, l) :: dict_append rest title obj
  end.

(** The body of the inner loop, for one [file] of [root]. *)
Definition group_file (fs : filesystem) (root : string)
  (acc : name_to_files) (file : string) : result name_to_files :=
  if Str.endswith file json_ext then Ok acc
  else
    let file_path := Path.join root file in
    let base_name := Str.lower (fst (Path.splitext file)) in
    let* metadata_file := load_metadata fs file_path in
    match metadata_file with
    | Some found =>
        let* photo_taken_time := get_photo_taken_time (data found) in
        let* title := get_title (data found) in
        Ok (dict_append acc title
              {| base_name := file;
                 photo_taken_time := photo_taken_time;
                 file_path := file_path;
                 json_path := path found |})
    | None =>
        Ok (dict_append acc (Some base_name)
              {| base_name := file;
                 photo_taken_time := PyStr EmptyString;
                 file_path := file_path;
                 json_path := EmptyString |})
    end.

(** A [for] loop whose body can raise. *)
Fixpoint for_each {A S : Type} (body : S -> A -> result S) (l : list A)
  (s : S) : result S :=
  match l with
  | [] => Ok s
  | x :: rest => let* s' := body s x in for_each body rest s'
  end.

Definition group_files_by_name_and_metadata (fs : filesystem)
  (directory : string) : result name_to_files :=
  for_each
    (fun acc (entry : string * list string) =>
       for_each (group_file fs (fst entry)) (snd entry) acc)
    (os_walk fs directory) [].

(** ** The matcher *)

Inductive log_record : Type :=
| Duplicate_found (album_path photo_path : string)
| Group_listing (title : option string)
| Found_count (n : nat)
| Removing_duplicate (file_path : string)
| Failed_to_remove (file_path : string) (e : exn).

(** The variables that step 2 of [find_duplicates] updates. *)
Record matcher_state : Type :=
  { duplicates : list string;
    count_media : nat;
    log : list log_record }.

Definition logging (r : log_record) (st : matcher_state) : matcher_state :=
  {| duplicates := duplicates st;
     count_media := count_media st;
     log := log st ++ [r] |}.

(** The four statements run at every hit:
    two [duplicates.append], the counter and the log line. *)
Definition mark (alb gp : media_obj) (st : matcher_state) : matcher_state :=
  {| duplicates := duplicates st ++ [file_path gp; json_path gp];
     count_media := S (count_media st);
     log := log st ++ [Duplicate_found (file_path alb) (file_path gp)] |}.

Definition same_time (a b : media_obj) : bool :=
  Py.eq (photo_taken_time a) (photo_taken_time b).

(** [for gp in photos_files: if album_files[0][...] == gp[...]: ...] *)
Definition scan_photos (alb0 : media_obj) (photos_files : list media_obj)
  (st : matcher_state) : matcher_state :=
  fold_left (fun st gp => if same_time alb0 gp then mark alb0 gp st else st)
    photos_files st.

(** [for alb in album_files: if photos_files[0][...] == alb[...]: ...] *)
Definition scan_albums (gp0 : media_obj) (album_files : list media_obj)
  (st : matcher_state) : matcher_state :=
  fold_left (fun st alb => if same_time gp0 alb then mark alb gp0 st else st)
    album_files st.

(** [for alb in album_files: if gp[...] == alb[...]: ...; break] *)
Fixpoint scan_until_match (gp : media_obj) (album_files : list media_obj)
  (st : matcher_state) : matcher_state :=
  match album_files with
  | [] => st
  | alb :: rest =>
      if same_time gp alb then mark alb gp st
      else scan_until_match gp rest st
  end.

(** The body of [for title, photos_files in photos_name_to_files.items()].
    A list stored in the grouping is never empty, so [l[0]] exists
    wherever it is evaluated. *)
Definition compare_title (albums_name_to_files : name_to_files)
  (st : matcher_state) (item : option string * list media_obj)
  : matcher_state :=
  let '(title, photos_files) := item in
  match dict_get albums_name_to_files title with
  | None => st
  | Some album_files =>
      match photos_files, album_files with
      | gp0 :: _, alb0 :: _ =>
          if (length photos_files =? 1)%nat && (length album_files =? 1)%nat
          then mark alb0 gp0 st
          else if (1 <? length photos_files)%nat
                  && (length album_files =? 1)%nat
          then scan_photos alb0 photos_files
                 (logging (Group_listing title) st)
          else if (length photos_files =? 1)%nat
                  && (1 <? length album_files)%nat
          then scan_albums gp0 album_files
                 (logging (Group_listing title) st)
          else if (1 <? length photos_files)%nat
                  && (1 <? length album_files)%nat
          then fold_left (fun st gp => scan_until_match gp album_files st)
                 photos_files (logging (Group_listing title) st)
          else st
      | _, _ => st
      end
  end.

Definition initial_state : matcher_state :=
  {| duplicates := []; count_media := 0; log := [] |}.

(** Step 2 of [find_duplicates], on the two groupings. *)
Definition compare_groupings (albums_name_to_files photos_name_to_files
  : name_to_files) : matcher_state :=
  fold_left (compare_title albums_name_to_files) photos_name_to_files
    initial_state.

(** [list(set(duplicates))]; the order of the result is the set's. *)
Definition list_of_set (l : list string) : list string :=
  elements (list_to_set l : gset string).

(** What [find_duplicates] returns once the two groupings are built. *)
Definition duplicate_paths (albums_name_to_files photos_name_to_files
  : name_to_files) : list string :=
  list_of_set
    (duplicates (compare_groupings albums_name_to_files photos_name_to_files)).

Definition find_duplicates (fs : filesystem)
  (albums_directory photos_directory : string) : result (list string) :=
  let* albums_name_to_files :=
    group_files_by_name_and_metadata fs albums_directory in
  let* photos_name_to_files :=
    group_files_by_name_and_metadata fs photos_directory in
  Ok (duplicate_paths albums_name_to_files photos_name_to_files).

(** ** The remover *)

(** Why [os.remove] refuses a file that exists. *)
Inductive fault : Type := Denied | Io_failure.

Definition fault_error (f : fault) : exn :=
  match f with
  | Denied => PermissionError
  | Io_failure => OSError
  end.

(** The storage that [os.remove] acts on. *)
Record disk : Type :=
  { present : gset string;
    faults : gmap string fault }.

Definition os_remove (file_path : string) (d : disk) : result disk :=
  if decide (file_path ∈ present d) then
    match faults d !! file_path with
    | Some f => Raise (fault_error f)
    | None =>
        Ok {| present := present d ∖ {[file_path]}; faults := faults d |}
    end
  else Raise FileNotFoundError.

(** The body of the loop: the [try] and its [except] clause. *)
Definition remove_one (st : disk * list log_record) (file_path : string)
  : result (disk * list log_record) :=
  let '(d, lg) := st in
  let lg := lg ++ [Removing_duplicate file_path] in
  match os_remove file_path d with
  | Ok d' => Ok (d', lg)
  | Raise e =>
      if is_OSError e then Ok (d, lg ++ [Failed_to_remove file_path e])
      else Raise e
  end.

Definition remove_duplicates (duplicates : list string) (d : disk)
  : result (disk * list log_record) :=
  for_each remove_one duplicates (d, []).


(** ** Definitions used to state the properties *)

(** The test that [find_metadata_file] applies to a directory entry. *)
Definition sidecar_test (media_file file : string) : bool :=
  let base_name := Path.basename media_file in
  let '(base_name_without_ext, ext) := Path.splitext base_name in
  let '(base_name_without_counter, counter) :=
    split_counter base_name_without_ext in
  Str.endswith file json_ext
  && entry_matches base_name base_name_without_counter ext counter file.

(** [obj] was built by the grouping walk of [directory]: it stands for a
    media file of the tree, and its [json_path] is the path of the
    sidecar that was loaded for it, or the empty string when there was
    none. *)
Definition walked (fs : filesystem) (directory : string) (obj : media_obj)
  : Prop :=
  ∃ root files file,
    (root, files) ∈ os_walk fs directory ∧ file ∈ files ∧
    Str.endswith file json_ext = false ∧
    file_path obj = Path.join root file ∧
    ((load_metadata fs (file_path obj) = Ok None
      ∧ json_path obj = EmptyString)
     ∨ (∃ found, load_metadata fs (file_path obj) = Ok (Some found)
                 ∧ json_path obj = path found)).

(** Running one piece of the matcher after another. *)
Definition st_app (s t : matcher_state) : matcher_state :=
  {| duplicates := duplicates s ++ duplicates t;
     count_media := count_media s + count_media t;
     log := log s ++ log t |}.

(** A step of the matcher only ever appends to its three variables. *)
Definition appends (F : matcher_state -> matcher_state) : Prop :=
  ∀ s t, F (st_app s t) = st_app s (F t).

(** The two paths that a hit on [gp] appends. *)
Definition paths_of (gp : media_obj) : list string :=
  [file_path gp; json_path gp].

(** The comparison of the two timestamps as the row of the decision table
    writes it: the album record is the left operand when the album list
    has one record, the record of the flat export otherwise. *)
Definition compared_equal (album_files : list media_obj)
  (gp alb : media_obj) : bool :=
  if (length album_files =? 1)%nat then same_time alb gp else same_time gp alb.

(** The record [gp] of the list [photos_files] of the flat export is
    marked against the list [album_files] that the album grouping has
    under the same title: without any test in the row with one record on
    each side, and in the three other rows when the comparison of its
    timestamp with that of some album record succeeds. *)
Definition marked (album_files photos_files : list media_obj)
  (gp : media_obj) : Prop :=
  gp ∈ photos_files
  ∧ ((length photos_files = 1 ∧ length album_files = 1)
     ∨ ((1 < length photos_files ∨ 1 < length album_files)
        ∧ ∃ alb, alb ∈ album_files
                 ∧ compared_equal album_files gp alb = true)).

(** [obj] is stored in the grouping [d], under some title. *)
Definition stored (d : name_to_files) (obj : media_obj) : Prop :=
  ∃ title l, (title, l) ∈ d ∧ obj ∈ l.







(** The log lines of one turn of the remover's loop on the storage [d]. *)
Definition attempt_log (d : disk) (file_path : string) : list log_record :=
  Removing_duplicate file_path
  :: match os_remove file_path d with
     | Ok _ => []
     | Raise e => [Failed_to_remove file_path e]
     end.

(** ** Example trees *)

(** A file system given by its directories and by what [json.load]
    returns for the sidecars; any other file is not JSON. *)
Definition tree_fs (dirs : list (string * list string))
  (sidecars : list (string * result pyval)) : filesystem :=
  {| os_walk := fun top =>
       List.filter
         (fun entry =>
            String.eqb (fst entry) top
            || Str.has_prefix (Str.chars (top +:+ "/")) (Str.chars (fst entry)))
         dirs;
     os_listdir := fun directory =>
       match List.find (fun entry => String.eqb (fst entry) directory) dirs with
       | Some entry => snd entry
       | None => []
       end;
     os_path_exists := fun p =>
       existsb
         (fun entry =>
            existsb (fun f => String.eqb (Path.join (fst entry) f) p)
              (snd entry))
         dirs;
     json_load := fun p =>
       match List.find (fun entry => String.eqb (fst entry) p) sidecars with
       | Some entry => snd entry
       | None => Raise JSONDecodeError
       end |}.

(** A record as the grouping stores it, for a file with a sidecar that
    gives the timestamp [t]. *)
Definition obj_at (root file : string) (t : Z) : media_obj :=
  {| base_name := file;
     photo_taken_time := PyInt t;
     file_path := Path.join root file;
     json_path := Path.join root (file +:+ json_ext) |}.

(** The record of a file for which no sidecar was loaded. *)
Definition bare_obj (root file : string) : media_obj :=
  {| base_name := file;
     photo_taken_time := PyStr EmptyString;
     file_path := Path.join root file;
     json_path := EmptyString |}.

(** Sidecars with an empty title and with no title at all. *)
Definition untitled_fs : filesystem :=
  tree_fs
    [("albums", ["a.jpg"; "a.jpg.json"; "b.jpg"; "b.jpg.json"])]
    [("albums/a.jpg.json", Ok (PyDict [("title", PyStr EmptyString)]));
     ("albums/b.jpg.json",
      Ok (PyDict [("photoTakenTime", PyDict [("timestamp", PyStr "100")])]))].

(** A sidecar whose text is not JSON, next to a file without sidecar. *)
Definition broken_fs : filesystem :=
  tree_fs
    [("albums", ["a.jpg"; "a.jpg.json"; "b.jpg"]); ("photos", ["b.jpg"])]
    [("albums/a.jpg.json", Raise JSONDecodeError)].

(** A directory that lists a suffixed sidecar before the exact one, and
    the same directory listed the other way round. *)
Definition suffixed_first_fs : filesystem :=
  tree_fs
    [("d", ["photo.jpg"; "photo.jpg.supplemental-metadata.json";
            "photo.jpg.json"])] [].

Definition exact_first_fs : filesystem :=
  tree_fs
    [("d", ["photo.jpg"; "photo.jpg.json";
            "photo.jpg.supplemental-metadata.json"])] [].



(** Three files, one of which cannot be deleted. *)
Definition guarded_disk : disk :=
  {| present := {["photos/a.jpg"; "photos/b.jpg"; "photos/c.jpg"]};
     faults := {["photos/b.jpg" := Denied]} |}.

(** No sidecar anywhere: one album file, two files of the same stem in
    the flat export. *)
Definition bare_fs : filesystem :=
  tree_fs [("albums", ["a.jpg"]); ("photos", ["a.jpg"; "a.png"])] [].

(** One file on each side, without sidecars. *)
Definition single_fs : filesystem :=
  tree_fs [("albums", ["a.jpg"]); ("photos", ["a.jpg"])] [].



(** ** The script as a whole, and [count.py] *)

(** The last lines of [remove_duplicates.py]: find, then remove. *)
Definition run (fs : filesystem) (albums_directory photos_directory : string)
  (d : disk) : result (disk * list log_record) :=
  let* duplicates := find_duplicates fs albums_directory photos_directory in
  remove_duplicates duplicates d.

(** [count.py]: the number of files under [directory] whose name does
    not end in [.json]. *)
Definition count_files (fs : filesystem) (directory : string) : nat :=
  fold_left
    (fun file_count (entry : string * list string) =>
       fold_left
         (fun file_count file =>
            if negb (Str.endswith file json_ext) then S file_count
            else file_count)
         (snd entry) file_count)
    (os_walk fs directory) 0.

(** The paths of the media files of one directory of the walk, and of
    the whole walk, in the order in which they are met. *)
Definition media_of_entry (entry : string * list string) : list string :=
  map (Path.join (fst entry))
    (List.filter (fun file => negb (Str.endswith file json_ext)) (snd entry)).

Definition media_paths (fs : filesystem) (directory : string) : list string :=
  flat_map media_of_entry (os_walk fs directory).

(** Every record of a grouping, title after title. *)
Definition all_objs (d : name_to_files) : list media_obj := flat_map snd d.

(** The titles of a grouping, in insertion order. *)
Definition titles (d : name_to_files) : list (option string) := map fst d.

(** The number of hits that the log reports. *)
Definition is_hit (r : log_record) : bool :=
  match r with
  | Duplicate_found _ _ => true
  | _ => false
  end.

(** The three variables of the matcher agree: two appended paths and one
    logged hit per counted duplicate. *)
Definition balanced (st : matcher_state) : Prop :=
  length (duplicates st) = 2 * count_media st
  ∧ count_media st = length (List.filter is_hit (log st)).

(** ** [find_file_formats.py] *)

Module FindFileFormats.

Section Suffix.

(** [pathlib.Path(file).suffix], which the script takes from the
    library. *)
Variable suffix : string -> string.

(** The body of the inner loop. *)
Definition note_extension (media_extensions : list string) (file : string)
  : list string :=
  let extension := suffix file in
  if negb (String.eqb extension json_ext)
     && negb (existsb (String.eqb extension) media_extensions)
  then media_extensions ++ [extension]
  else media_extensions.

(** [merge_metadata(media_folder)]: the list that it prints. *)
Definition merge_metadata (fs : filesystem) (media_folder : string)
  : list string :=
  fold_left
    (fun media_extensions (entry : string * list string) =>
       fold_left note_extension (snd entry) media_extensions)
    (os_walk fs media_folder) [].

End Suffix.

(** The suffix of a file name as Python 3.12 and 3.13 compute it: what
    starts at the last dot, unless that dot is the first or the last
    character of the name. *)
Definition name_suffix (name : string) : string :=
  match Path.rsplit_before_dot (Str.chars name) with
  | (_ :: _, d :: c :: ext) => Str.of_chars (d :: c :: ext)
  | _ => EmptyString
  end.

End FindFileFormats.

(** ** [merge_metadata.py]: the parts that do not touch the media *)

Module MergeMetadata.

Inductive log_line : Type :=
| Failed_to_load (json_path : string) (e : exn)
| Invalid_integer (n : Z)
| Invalid_float (shown : string)
| Unsupported_type
| Removing_invalid_tag (tag : Z) (ifd : string)
| Skipping_unsupported (file : string)
| No_json_or_timestamp (file : string).

(** [get_metadata_from_json(json_path)]: every exception of the load is
    caught. *)
Definition get_metadata_from_json (fs : filesystem) (json_path : string)
  : pyval * list log_line :=
  if os_path_exists fs json_path then
    match json_load fs json_path with
    | Ok loaded => (loaded, [])
    | Raise e => (PyDict [], [Failed_to_load json_path e])
    end
  else (PyDict [], []).

(** [file.startswith(prefix)] *)
Definition startswith (file prefix : string) : bool :=
  Str.has_prefix (Str.chars prefix) (Str.chars file).

(** The test of the loop of [find_json_file_for_media]. *)
Definition json_test (media_path file : string) : bool :=
  let base_name := fst (Path.splitext media_path) in
  startswith file (Path.basename base_name) && Str.endswith file json_ext.

Fixpoint find_json_loop (media_path directory : string) (files : list string)
  : option string :=
  match files with
  | [] => None
  | file :: rest =>
      if json_test media_path file then Some (Path.join directory file)
      else find_json_loop media_path directory rest
  end.

Definition find_json_file_for_media (fs : filesystem) (media_path : string)
  : option string :=
  let directory := Path.dirname media_path in
  find_json_loop media_path directory (os_listdir fs directory).

(** *** EXIF values and dictionaries *)

(** A Python [float]: not a number, an infinity, or the finite value
    [m * 2 ^ e].  The script only compares a float with two integers and
    truncates it, and both are exact. *)
Inductive pyfloat : Type :=
| FNan
| FInf (negative : bool)
| FFinite (m e : Z).

(** [n <= x] *)
Definition int_le_float (n : Z) (x : pyfloat) : bool :=
  match x with
  | FNan => false
  | FInf negative => negb negative
  | FFinite m e =>
      if (0 <=? e)%Z then (n <=? m * 2 ^ e)%Z
      else (n * 2 ^ (- e) <=? m)%Z
  end.

(** [x <= n] *)
Definition float_le_int (x : pyfloat) (n : Z) : bool :=
  match x with
  | FNan => false
  | FInf negative => negative
  | FFinite m e =>
      if (0 <=? e)%Z then (m * 2 ^ e <=? n)%Z
      else (m <=? n * 2 ^ (- e))%Z
  end.

(** [int(x)]: the fraction is dropped; [None] where Python raises. *)
Definition int_of_float (x : pyfloat) : option Z :=
  match x with
  | FNan | FInf _ => None
  | FFinite m e =>
      Some (if (0 <=? e)%Z then m * 2 ^ e else Z.quot m (2 ^ (- e)))%Z
  end.

(** The values of EXIF tags; a float comes with its [repr], and a value
    of a type that the script does not name is known by its [repr]. *)
Inductive exif_value : Type :=
| EBool (b : bool)
| EInt (n : Z)
| EFloat (x : pyfloat) (shown : string)
| EStr (s : string)
| EBytes (b : string)
| ETuple (items : list exif_value)
| EOther (shown : string).

Definition repr_byte (quote : ascii) (c : ascii) : list ascii :=
  let n := nat_of_ascii c in
  if Ascii.eqb c Str.backslash then [Str.backslash; Str.backslash]
  else if Ascii.eqb c quote then [Str.backslash; quote]
  else if (n =? 9)%nat then [Str.backslash; "t"%char]
  else if (n =? 10)%nat then [Str.backslash; "n"%char]
  else if (n =? 13)%nat then [Str.backslash; "r"%char]
  else if (n <? 32)%nat || (127 <=? n)%nat
       then [Str.backslash; "x"%char;
             Py.hex_digit (n / 16); Py.hex_digit (n mod 16)]
  else [c].

(** [repr(b)] of a bytes object *)
Definition repr_bytes (b : string) : string :=
  let cs := Str.chars b in
  let quote :=
    if existsb (Ascii.eqb Str.squote) cs
       && negb (existsb (Ascii.eqb Str.dquote) cs)
    then Str.dquote else Str.squote in
  Str.of_chars ("b"%char :: quote :: flat_map (repr_byte quote) cs ++ [quote]).

Fixpoint repr (v : exif_value) : string :=
  match v with
  | EBool true => "True"
  | EBool false => "False"
  | EInt n => NilZero.string_of_int (Z.to_int n)
  | EFloat _ shown => shown
  | EStr s => Py.repr_str s
  | EBytes b => repr_bytes b
  | ETuple items =>
      match items with
      | [x] => "(" +:+ repr x +:+ ",)"
      | _ => "(" +:+ Py.join_with ", " (map repr items) +:+ ")"
      end
  | EOther shown => shown
  end.

Definition int32_min : Z := -2147483648.
Definition int32_max : Z := 2147483647.

(** [validate_exif_value(value)]; [True] and [False] are integers too.
    A float that passes the comparison is finite, so [int(value)] does
    not raise there. *)
Definition validate_exif_value (value : exif_value)
  : option exif_value * list log_line :=
  match value with
  | EBool b => (Some (EBool b), [])
  | EInt n =>
      if (int32_min <=? n)%Z && (n <=? int32_max)%Z then (Some (EInt n), [])
      else (None, [Invalid_integer n])
  | EFloat x shown =>
      if int_le_float int32_min x && float_le_int x int32_max
      then (option_map EInt (int_of_float x), [])
      else (None, [Invalid_float shown])
  | EStr s => (Some (EBytes (Str.encode_utf8 s)), [])
  | EBytes b => (Some (EBytes b), [])
  | ETuple items =>
      (Some (EBytes (Str.encode_utf8 (repr (ETuple items)))), [])
  | EOther _ => (None, [Unsupported_type])
  end.

(** An EXIF dictionary as [piexif.load] and the script build it: image
    file directories that hold tags, and the entry [thumbnail], which
    holds bytes or [None] when it is there. *)
Record exif_dict : Type :=
  { ifds : list (string * list (Z * exif_value));
    thumbnail : option (option string) }.

Definition remove_thumbnail (d : exif_dict) : exif_dict :=
  {| ifds := ifds d; thumbnail := None |}.

(** [del tags[tag]] *)
Definition del_tag (tag : Z) (tags : list (Z * exif_value))
  : list (Z * exif_value) :=
  List.filter (fun entry => negb (Z.eqb (fst entry) tag)) tags.

Definition scene_type : Z := 41729.

(** One turn of [for tag in list(exif_dict[ifd].keys())]. *)
Definition clean_tag (ifd : string)
  (st : list (Z * exif_value) * list log_line) (entry : Z * exif_value)
  : list (Z * exif_value) * list log_line :=
  let '(tags, lg) := st in
  if Z.eqb (fst entry) scene_type
  then (del_tag (fst entry) tags, lg ++ [Removing_invalid_tag (fst entry) ifd])
  else (tags, lg ++ snd (validate_exif_value (snd entry))).

Definition clean_ifd (st : list (string * list (Z * exif_value)) * list log_line)
  (entry : string * list (Z * exif_value))
  : list (string * list (Z * exif_value)) * list log_line :=
  let '(done, lg) := st in
  let '(tags, lg') := fold_left (clean_tag (fst entry)) (snd entry)
                        (snd entry, lg) in
  (done ++ [(fst entry, tags)], lg').

Definition clean_exif_dict (d : exif_dict) : exif_dict * list log_line :=
  let '(cleaned, lg) := fold_left clean_ifd (ifds d) ([], []) in
  ({| ifds := cleaned; thumbnail := thumbnail d |}, lg).

(** *** The counters of [merge_metadata] *)

Record counters : Type :=
  { initial_file_count : nat;
    updated_file_count : nat;
    unprocessed_file_count : nat;
    updated_files : list string;
    warnings : list log_line }.

Definition no_counts : counters :=
  {| initial_file_count := 0; updated_file_count := 0;
     unprocessed_file_count := 0; updated_files := []; warnings := [] |}.

(** [file.lower().endswith(suffixes)] for a tuple of suffixes *)
Definition lower_endswith_any (file : string) (suffixes : list string) : bool :=
  existsb (Str.endswith (Str.lower file)) suffixes.

Definition photo_suffixes : list string := [".jpg"; ".jpeg"; ".png"; ".nef"].
Definition video_suffixes : list string :=
  [".mp4"; ".mov"; ".avi"; ".wmv"; ".mpg"; ".3gp"].

Definition count_updated (path : string) (c : counters) : counters :=
  {| initial_file_count := initial_file_count c;
     updated_file_count := S (updated_file_count c);
     unprocessed_file_count := unprocessed_file_count c;
     updated_files := updated_files c ++ [path];
     warnings := warnings c |}.

Definition count_unprocessed (lines : list log_line) (c : counters) : counters :=
  {| initial_file_count := initial_file_count c;
     updated_file_count := updated_file_count c;
     unprocessed_file_count := S (unprocessed_file_count c);
     updated_files := updated_files c;
     warnings := warnings c ++ lines |}.

Definition count_initial (lines : list log_line) (c : counters) : counters :=
  {| initial_file_count := S (initial_file_count c);
     updated_file_count := updated_file_count c;
     unprocessed_file_count := unprocessed_file_count c;
     updated_files := updated_files c;
     warnings := warnings c ++ lines |}.

Section Writers.

(** The state of the storage while the media are rewritten, what the
    script reads of it, and the two writers, which catch every exception
    and answer by a boolean. *)
Variable world : Type.
Variable view : world -> filesystem.
Variable update_photo_metadata :
  string -> pyval -> pyval -> world -> bool * world.
Variable update_video_metadata :
  string -> pyval -> string -> world -> bool * world.

(** The body of [for file in files] in [merge_metadata]. *)
Definition process_file (root processed_folder : string)
  (directory_photo_taken_time : pyval) (st : world * counters)
  (file : string) : world * counters :=
  let '(w, c) := st in
  if negb (Str.endswith file json_ext) then
    let media_path := Path.join root file in
    let json_path := find_json_file_for_media (view w) media_path in
    let '(metadata, lines) :=
      match json_path with
      | Some found =>
          if negb (String.eqb found EmptyString)
          then get_metadata_from_json (view w) found
          else (PyDict [], [])
      | None => (PyDict [], [])
      end in
    let c := count_initial lines c in
    if Py.truthy metadata || Py.truthy directory_photo_taken_time then
      if lower_endswith_any file photo_suffixes then
        let '(ok, w') :=
          update_photo_metadata media_path metadata
            directory_photo_taken_time w in
        if ok then
          if Str.endswith (Str.lower media_path) ".nef"
          then (w', count_updated (fst (Path.splitext media_path) +:+ ".jpg") c)
          else (w', count_updated media_path c)
        else (w', count_unprocessed [] c)
      else if lower_endswith_any file video_suffixes then
        let '(ok, w') :=
          update_video_metadata media_path metadata processed_folder w in
        if ok then (w', count_updated media_path c)
        else (w', count_unprocessed [] c)
      else if Str.endswith (Str.lower file) ".gif" then
        (w, count_updated media_path c)
      else (w, count_unprocessed [Skipping_unsupported file] c)
    else (w, count_unprocessed [No_json_or_timestamp file] c)
  else (w, c).

(** The loop over the files of one directory, from fresh counters. *)
Definition process_files (root processed_folder : string)
  (directory_photo_taken_time : pyval) (files : list string) (w : world)
  : world * counters :=
  fold_left (process_file root processed_folder directory_photo_taken_time)
    files (w, no_counts).

End Writers.

End MergeMetadata.


(** ** The matcher: how the state evolves *)

Lemma st_app_initial_r s : st_app s initial_state = s.
Proof.
  destruct s as [d c l]. unfold st_app; cbn.
  by rewrite !app_nil_r, Nat.add_0_r.
Qed.

Lemma appends_from_initial F s : appends F → F s = st_app s (F initial_state).
Proof. intros HF. by rewrite <- HF, st_app_initial_r. Qed.

Lemma appends_mark alb gp : appends (mark alb gp).
Proof.
  intros s t. unfold mark, st_app; cbn.
  by rewrite !app_assoc, Nat.add_succ_r.
Qed.

Lemma appends_logging r : appends (logging r).
Proof. intros s t. unfold logging, st_app; cbn. by rewrite !app_assoc. Qed.

Lemma appends_id : appends (fun st => st).
Proof. by intros s t. Qed.

Lemma appends_compose F G : appends F → appends G → appends (fun st => G (F st)).
Proof. intros HF HG s t. by rewrite HF, HG. Qed.

Lemma appends_fold {A} (body : matcher_state → A → matcher_state) l :
  (∀ x, appends (fun st => body st x)) →
  appends (fun st => fold_left body l st).
Proof.
  intros Hbody. induction l as [|x l IH]; intros s t; cbn; [done|].
  by rewrite (Hbody x s t), IH.
Qed.

Lemma appends_scan_photos alb0 l : appends (scan_photos alb0 l).
Proof.
  apply appends_fold. intros gp s t.
  destruct (same_time alb0 gp); [apply appends_mark | done].
Qed.

Lemma appends_scan_albums gp0 l : appends (scan_albums gp0 l).
Proof.
  apply appends_fold. intros alb s t.
  destruct (same_time gp0 alb); [apply appends_mark | done].
Qed.

Lemma appends_scan_until_match gp l : appends (scan_until_match gp l).
Proof.
  induction l as [|alb l IH]; intros s t; cbn; [done|].
  destruct (same_time gp alb); [apply appends_mark | apply IH].
Qed.

Lemma appends_compare_title albums item :
  appends (fun st => compare_title albums st item).
Proof.
  destruct item as [title photos_files]. intros s t. unfold compare_title.
  destruct (dict_get albums title) as [album_files|]; [|done].
  destruct photos_files as [|gp0 ?]; [done|].
  destruct album_files as [|alb0 ?]; [done|].
  repeat (match goal with |- context [if ?b then _ else _] => destruct b end);
    try done;
    first [ apply appends_mark
          | apply (appends_compose _ _ (appends_logging _));
            first [ apply appends_scan_photos | apply appends_scan_albums
                  | apply appends_fold; intros; apply appends_scan_until_match ] ].
Qed.

Lemma duplicates_compare_groupings_from albums photos s :
  duplicates (fold_left (compare_title albums) photos s)
  = duplicates s
    ++ flat_map (fun item => duplicates (compare_title albums initial_state item))
         photos.
Proof.
  revert s. induction photos as [|item photos IH]; intros s; cbn.
  - by rewrite app_nil_r.
  - rewrite IH.
    rewrite (appends_from_initial (fun st => compare_title albums st item) s)
      by apply appends_compare_title.
    cbn. by rewrite <- app_assoc.
Qed.

Lemma duplicates_compare_groupings albums photos :
  duplicates (compare_groupings albums photos)
  = flat_map (fun item => duplicates (compare_title albums initial_state item))
      photos.
Proof. apply (duplicates_compare_groupings_from albums photos initial_state). Qed.

Lemma log_compare_groupings_from albums photos s :
  log (fold_left (compare_title albums) photos s)
  = log s
    ++ flat_map (fun item => log (compare_title albums initial_state item))
         photos.
Proof.
  revert s. induction photos as [|item photos IH]; intros s; cbn.
  - by rewrite app_nil_r.
  - rewrite IH.
    rewrite (appends_from_initial (fun st => compare_title albums st item) s)
      by apply appends_compare_title.
    cbn. by rewrite <- app_assoc.
Qed.

(** *** The four rows of the decision table *)

Lemma compare_title_one_one albums st title gp alb :
  dict_get albums title = Some [alb] →
  compare_title albums st (title, [gp]) = mark alb gp st.
Proof. intros H. unfold compare_title. by rewrite H. Qed.

Lemma compare_title_many_one albums st title photos_files alb0 :
  dict_get albums title = Some [alb0] →
  1 < length photos_files →
  compare_title albums st (title, photos_files)
  = scan_photos alb0 photos_files (logging (Group_listing title) st).
Proof.
  intros H Hlen. unfold compare_title. rewrite H.
  destruct photos_files as [|gp0 [|gp1 rest]]; cbn in Hlen; try lia. done.
Qed.

Lemma compare_title_one_many albums st title gp0 album_files :
  dict_get albums title = Some album_files →
  1 < length album_files →
  compare_title albums st (title, [gp0])
  = scan_albums gp0 album_files (logging (Group_listing title) st).
Proof.
  intros H Hlen. unfold compare_title. rewrite H.
  destruct album_files as [|alb0 [|alb1 rest]]; cbn in Hlen; try lia. done.
Qed.

Lemma compare_title_many_many albums st title photos_files album_files :
  dict_get albums title = Some album_files →
  1 < length photos_files →
  1 < length album_files →
  compare_title albums st (title, photos_files)
  = fold_left (fun st gp => scan_until_match gp album_files st) photos_files
      (logging (Group_listing title) st).
Proof.
  intros H Hp Ha. unfold compare_title. rewrite H.
  destruct photos_files as [|gp0 [|gp1 prest]]; cbn in Hp; try lia.
  destruct album_files as [|alb0 [|alb1 arest]]; cbn in Ha; try lia. done.
Qed.

Lemma compare_title_absent albums st title photos_files :
  dict_get albums title = None →
  compare_title albums st (title, photos_files) = st.
Proof. intros H. unfold compare_title. by rewrite H. Qed.

(** *** What each scan appends *)

Lemma duplicates_scan_photos alb0 photos_files st :
  duplicates (scan_photos alb0 photos_files st)
  = duplicates st
    ++ flat_map (fun gp => if same_time alb0 gp then paths_of gp else [])
         photos_files.
Proof.
  unfold scan_photos. revert st.
  induction photos_files as [|gp l IH]; intros st; cbn.
  - by rewrite app_nil_r.
  - rewrite IH. destruct (same_time alb0 gp); cbn; [|done].
    by rewrite <- app_assoc.
Qed.

Lemma duplicates_scan_albums gp0 album_files st :
  duplicates (scan_albums gp0 album_files st)
  = duplicates st
    ++ flat_map (fun alb => if same_time gp0 alb then paths_of gp0 else [])
         album_files.
Proof.
  unfold scan_albums. revert st.
  induction album_files as [|alb l IH]; intros st; cbn.
  - by rewrite app_nil_r.
  - rewrite IH. destruct (same_time gp0 alb); cbn; [|done].
    by rewrite <- app_assoc.
Qed.

Lemma scan_until_match_existsb gp album_files st :
  duplicates (scan_until_match gp album_files st)
  = duplicates st
    ++ (if existsb (same_time gp) album_files then paths_of gp else [])
  ∧ count_media (scan_until_match gp album_files st)
    = count_media st + (if existsb (same_time gp) album_files then 1 else 0).
Proof.
  induction album_files as [|alb l IH]; cbn.
  - by rewrite app_nil_r, Nat.add_0_r.
  - destruct (same_time gp alb); cbn; [|done].
    split; [done | lia].
Qed.

Lemma duplicates_scan_all gp_list album_files st :
  duplicates
    (fold_left (fun st gp => scan_until_match gp album_files st) gp_list st)
  = duplicates st
    ++ flat_map
         (fun gp => if existsb (same_time gp) album_files
                    then paths_of gp else [])
         gp_list.
Proof.
  revert st. induction gp_list as [|gp l IH]; intros st; cbn.
  - by rewrite app_nil_r.
  - rewrite IH, (proj1 (scan_until_match_existsb gp album_files st)).
    by rewrite <- app_assoc.
Qed.

Lemma count_scan_all gp_list album_files st :
  count_media
    (fold_left (fun st gp => scan_until_match gp album_files st) gp_list st)
  = count_media st
    + length (List.filter (fun gp => existsb (same_time gp) album_files)
                gp_list).
Proof.
  revert st. induction gp_list as [|gp l IH]; intros st; cbn.
  - lia.
  - rewrite IH, (proj2 (scan_until_match_existsb gp album_files st)).
    destruct (existsb (same_time gp) album_files); cbn; lia.
Qed.

Lemma scan_until_match_first gp album_files st :
  (Forall (fun alb => same_time gp alb = false) album_files
   ∧ scan_until_match gp album_files st = st)
  ∨ (∃ before alb after,
        album_files = before ++ alb :: after
        ∧ Forall (fun a => same_time gp a = false) before
        ∧ same_time gp alb = true
        ∧ scan_until_match gp album_files st = mark alb gp st).
Proof.
  induction album_files as [|alb l IH]; cbn.
  - left. split; [constructor | done].
  - destruct (same_time gp alb) eqn:E.
    + right. exists [], alb, l. repeat split; [constructor | done].
    + destruct IH as [[Hall Heq] | (before & alb' & after & -> & Hb & Ht & Heq)].
      * left. split; [by constructor | done].
      * right. exists (alb :: before), alb', after.
        repeat split; [by constructor | done | done].
Qed.

Lemma elem_of_flat_map {A B} (f : A → list B) (l : list A) (y : B) :
  y ∈ flat_map f l ↔ ∃ x, x ∈ l ∧ y ∈ f x.
Proof.
  split.
  - intros H. apply list_elem_of_In, in_flat_map in H as (x & Hx & Hy).
    exists x. split; by apply list_elem_of_In.
  - intros (x & Hx & Hy). apply list_elem_of_In, in_flat_map.
    exists x. split; by apply list_elem_of_In.
Qed.

Lemma elem_of_duplicate_paths albums photos x :
  x ∈ duplicate_paths albums photos
  ↔ x ∈ duplicates (compare_groupings albums photos).
Proof.
  unfold duplicate_paths, list_of_set.
  by rewrite elem_of_elements, elem_of_list_to_set.
Qed.

Lemma elem_of_compare_groupings albums photos x :
  x ∈ duplicates (compare_groupings albums photos)
  ↔ ∃ item, item ∈ photos
            ∧ x ∈ duplicates (compare_title albums initial_state item).
Proof. by rewrite duplicates_compare_groupings, elem_of_flat_map. Qed.

(** ** The matcher: the rows of the decision table *)

(** C6. A title held by exactly one album record and exactly one record
    of the flat export: that record is marked whatever the two
    timestamps are.  Both of its paths are in the result, the hit is
    logged, and the step taken for the title is a single [mark]. *)
Theorem one_to_one_marks_unconditionally
  (albums photos : name_to_files) (title : option string)
  (alb gp : media_obj) :
  (title, [gp]) ∈ photos →
  dict_get albums title = Some [alb] →
  file_path gp ∈ duplicate_paths albums photos
  ∧ json_path gp ∈ duplicate_paths albums photos
  ∧ Duplicate_found (file_path alb) (file_path gp)
      ∈ log (compare_groupings albums photos)
  ∧ ∀ st, compare_title albums st (title, [gp]) = mark alb gp st.
Proof.
  intros Hin Hget.
  assert (Hstep : ∀ st, compare_title albums st (title, [gp]) = mark alb gp st)
    by (intros st; by apply compare_title_one_one).
  repeat split; [| | |done].
  - apply elem_of_duplicate_paths, elem_of_compare_groupings.
    exists (title, [gp]). split; [done|]. rewrite Hstep. cbn. set_solver.
  - apply elem_of_duplicate_paths, elem_of_compare_groupings.
    exists (title, [gp]). split; [done|]. rewrite Hstep. cbn. set_solver.
  - unfold compare_groupings. rewrite log_compare_groupings_from. cbn.
    apply elem_of_flat_map. exists (title, [gp]). split; [done|].
    rewrite Hstep. cbn. set_solver.
Qed.

Lemma one_to_one_marks_unconditionally_witness :
  let albums := [(Some "a", [obj_at "albums" "a.jpg" 100])] in
  let photos := [(Some "a", [obj_at "photos" "a.jpg" 999])] in
  "photos/a.jpg" ∈ duplicate_paths albums photos
  ∧ "photos/a.jpg.json" ∈ duplicate_paths albums photos
  ∧ Duplicate_found "albums/a.jpg" "photos/a.jpg"
      ∈ log (compare_groupings albums photos)
  ∧ ∀ st, compare_title albums st (Some "a", [obj_at "photos" "a.jpg" 999])
          = mark (obj_at "albums" "a.jpg" 100) (obj_at "photos" "a.jpg" 999) st.
Proof.
  apply (one_to_one_marks_unconditionally
           [(Some "a", [obj_at "albums" "a.jpg" 100])]
           [(Some "a", [obj_at "photos" "a.jpg" 999])]
           (Some "a")
           (obj_at "albums" "a.jpg" 100) (obj_at "photos" "a.jpg" 999)).
  - constructor.
  - reflexivity.
Defined.

(** C7. A title with more than one record on both sides: every record of
    the flat export is taken in turn and the album list is scanned in
    list order up to the first record with an equal timestamp, which
    ends the scan.  So a record is marked once if some album record
    matches it (against the first such record) and not at all
    otherwise, and the counter grows by the number of records that have
    a match. *)
Theorem many_to_many_stops_at_first_match
  (albums : name_to_files) (title : option string)
  (photos_files album_files : list media_obj) (st : matcher_state) :
  dict_get albums title = Some album_files →
  1 < length photos_files →
  1 < length album_files →
  compare_title albums st (title, photos_files)
  = fold_left (fun st gp => scan_until_match gp album_files st) photos_files
      (logging (Group_listing title) st)
  ∧ (∀ gp st',
       (Forall (fun alb => same_time gp alb = false) album_files
        ∧ scan_until_match gp album_files st' = st')
       ∨ (∃ before alb after,
            album_files = before ++ alb :: after
            ∧ Forall (fun a => same_time gp a = false) before
            ∧ same_time gp alb = true
            ∧ scan_until_match gp album_files st' = mark alb gp st'))
  ∧ duplicates (compare_title albums st (title, photos_files))
    = duplicates st
      ++ flat_map
           (fun gp => if existsb (same_time gp) album_files
                      then paths_of gp else [])
           photos_files
  ∧ count_media (compare_title albums st (title, photos_files))
    = count_media st
      + length (List.filter (fun gp => existsb (same_time gp) album_files)
                  photos_files).
Proof.
  intros Hget Hp Ha.
  rewrite (compare_title_many_many _ _ _ _ _ Hget Hp Ha).
  split; [done|]. split; [intros; apply scan_until_match_first|].
  split.
  - by rewrite duplicates_scan_all.
  - by rewrite count_scan_all.
Qed.

Lemma many_to_many_stops_at_first_match_witness :
  let r1 := obj_at "albums" "a.jpg" 100 in
  let r2 := obj_at "albums/x" "a.jpg" 200 in
  let r3 := obj_at "albums/y" "a.jpg" 200 in
  let c1 := obj_at "photos" "a.jpg" 200 in
  let c2 := obj_at "photos/x" "a.jpg" 300 in
  let albums := [(Some "a", [r1; r2; r3])] in
  duplicates (compare_title albums initial_state (Some "a", [c1; c2]))
  = ["photos/a.jpg"; "photos/a.jpg.json"]
  ∧ count_media (compare_title albums initial_state (Some "a", [c1; c2])) = 1
  ∧ log (compare_title albums initial_state (Some "a", [c1; c2]))
    = [Group_listing (Some "a");
       Duplicate_found "albums/x/a.jpg" "photos/a.jpg"].
Proof.
  pose proof (many_to_many_stops_at_first_match
                [(Some "a", [obj_at "albums" "a.jpg" 100;
                             obj_at "albums/x" "a.jpg" 200;
                             obj_at "albums/y" "a.jpg" 200])]
                (Some "a")
                [obj_at "photos" "a.jpg" 200; obj_at "photos/x" "a.jpg" 300]
                [obj_at "albums" "a.jpg" 100; obj_at "albums/x" "a.jpg" 200;
                 obj_at "albums/y" "a.jpg" 200]
                initial_state) as H.
  destruct H as (Hstep & _ & Hdup & Hcount).
  - reflexivity.
  - simpl. lia.
  - simpl. lia.
  - cbv zeta. rewrite Hdup, Hcount, Hstep. repeat split.
Defined.

(** ** The matcher: timestamps *)

Lemma elem_of_flat_map_if {A} (test : A → bool) (f : A → list string)
  (l : list A) (x : string) :
  x ∈ flat_map (fun a => if test a then f a else []) l
  ↔ ∃ a, a ∈ l ∧ test a = true ∧ x ∈ f a.
Proof.
  rewrite elem_of_flat_map. split.
  - intros (a & Ha & Hx). exists a. destruct (test a); [done|].
    by apply elem_of_nil in Hx.
  - intros (a & Ha & Ht & Hx). exists a. by rewrite Ht.
Qed.

Lemma existsb_elem_of {A} (f : A → bool) (l : list A) :
  existsb f l = true ↔ ∃ a, a ∈ l ∧ f a = true.
Proof.
  rewrite existsb_exists. split; intros (a & Ha & Hf); exists a.
  - by rewrite list_elem_of_In.
  - by rewrite <- list_elem_of_In.
Qed.

(** C1, as the code has it.  Under a title that has more than one record
    on either side, a path is appended exactly when it is one of the two
    paths of a record of the flat export whose stored timestamp equals,
    by Python's [==], that of an album record.  A timestamp that is
    absent is stored as the empty string (no sidecar) or as [None] (a
    sidecar without [photoTakenTime]); each of the two equals itself, so
    two records without a timestamp do match, and they differ from each
    other. *)
Theorem timestamp_rows_compare_stored_values
  (albums : name_to_files) (title : option string)
  (photos_files album_files : list media_obj) :
  dict_get albums title = Some album_files →
  1 < length photos_files ∨ 1 < length album_files →
  (∀ x,
     x ∈ duplicates (compare_title albums initial_state (title, photos_files))
     ↔ ∃ gp alb, gp ∈ photos_files ∧ alb ∈ album_files
                 ∧ compared_equal album_files gp alb = true
                 ∧ x ∈ paths_of gp)
  ∧ (∀ gp alb,
       photo_taken_time gp = PyStr EmptyString →
       photo_taken_time alb = PyStr EmptyString →
       compared_equal album_files gp alb = true)
  ∧ (∀ gp alb,
       photo_taken_time gp = PyNone → photo_taken_time alb = PyNone →
       compared_equal album_files gp alb = true)
  ∧ (∀ gp alb,
       photo_taken_time gp = PyStr EmptyString →
       photo_taken_time alb = PyNone →
       compared_equal album_files gp alb = false).
Proof.
  intros Hget Hlen. split.
  - intros x.
    destruct photos_files as [|gp0 [|gp1 prest]].
    + (* no record at all *)
      unfold compare_title. rewrite Hget. cbn. split.
      * intros H. by apply elem_of_nil in H.
      * intros (gp & alb & Hgp & _). by apply elem_of_nil in Hgp.
    + (* one record of the flat export *)
      destruct Hlen as [Hlen|Hlen]; [cbn in Hlen; lia|].
      rewrite (compare_title_one_many _ _ _ _ _ Hget Hlen).
      rewrite duplicates_scan_albums. cbn [duplicates logging initial_state app].
      rewrite elem_of_flat_map_if. unfold compared_equal.
      replace (length album_files =? 1)%nat with false
        by (symmetry; apply Nat.eqb_neq; lia).
      split.
      * intros (alb & Halb & Ht & Hx). exists gp0, alb.
        repeat split; [constructor | done..].
      * intros (gp & alb & Hgp & Halb & Ht & Hx).
        apply list_elem_of_singleton in Hgp as ->. by exists alb.
    + (* several records of the flat export *)
      destruct album_files as [|alb0 [|alb1 arest]].
      * unfold compare_title. rewrite Hget. cbn. split.
        -- intros H. by apply elem_of_nil in H.
        -- intros (gp & alb & _ & Halb & _). by apply elem_of_nil in Halb.
      * rewrite (compare_title_many_one _ _ _ _ _ Hget) by (cbn; lia).
        rewrite duplicates_scan_photos.
        cbn [duplicates logging initial_state app].
        rewrite elem_of_flat_map_if. unfold compared_equal. cbn [length Nat.eqb].
        split.
        -- intros (gp & Hgp & Ht & Hx). exists gp, alb0.
           repeat split; [done | constructor | done..].
        -- intros (gp & alb & Hgp & Halb & Ht & Hx).
           apply list_elem_of_singleton in Halb as ->. by exists gp.
      * rewrite (compare_title_many_many _ _ _ _ _ Hget)
          by (cbn; lia).
        rewrite duplicates_scan_all.
        cbn [duplicates logging initial_state app].
        rewrite elem_of_flat_map_if. unfold compared_equal.
        cbn [length Nat.eqb].
        split.
        -- intros (gp & Hgp & Ht & Hx).
           apply existsb_elem_of in Ht as (alb & Halb & Ht). by exists gp, alb.
        -- intros (gp & alb & Hgp & Halb & Ht & Hx). exists gp.
           repeat split; [done | | done].
           apply existsb_elem_of. by exists alb.
  - unfold compared_equal, same_time.
    repeat split; intros gp alb -> ->; by destruct (length album_files =? 1)%nat.
Qed.

Lemma timestamp_rows_compare_stored_values_witness :
  let albums := [(Some "a", [obj_at "albums" "a.jpg" 100])] in
  let photos_files :=
    [obj_at "photos" "a.jpg" 100; obj_at "photos/x" "a.jpg" 200] in
  "photos/a.jpg"
    ∈ duplicates (compare_title albums initial_state (Some "a", photos_files))
  ∧ ¬ "photos/x/a.jpg"
        ∈ duplicates
            (compare_title albums initial_state (Some "a", photos_files)).
Proof.
  destruct (timestamp_rows_compare_stored_values
              [(Some "a", [obj_at "albums" "a.jpg" 100])] (Some "a")
              [obj_at "photos" "a.jpg" 100; obj_at "photos/x" "a.jpg" 200]
              [obj_at "albums" "a.jpg" 100]) as (Hiff & _).
  - reflexivity.
  - left. simpl. lia.
  - cbv zeta. split.
    + apply Hiff.
      exists (obj_at "photos" "a.jpg" 100), (obj_at "albums" "a.jpg" 100).
      repeat split; repeat constructor.
    + intros H. apply list_elem_of_In in H. vm_compute in H.
      destruct H as [H|[H|[]]]; discriminate H.
Defined.

(** C1, the claim as written fails: in a tree without any sidecar the two
    files [a.jpg] and [a.png] of the flat export share the title [a]
    with one album file; all three timestamps are absent, and both files
    are returned as duplicates. *)
Lemma absent_timestamps_match_each_other :
  group_files_by_name_and_metadata bare_fs "albums"
  = Ok [(Some "a", [bare_obj "albums" "a.jpg"])]
  ∧ group_files_by_name_and_metadata bare_fs "photos"
    = Ok [(Some "a", [bare_obj "photos" "a.jpg"; bare_obj "photos" "a.png"])]
  ∧ ∃ out, find_duplicates bare_fs "albums" "photos" = Ok out
           ∧ "photos/a.jpg" ∈ out ∧ "photos/a.png" ∈ out.
Proof.
  split; [by vm_compute|]. split; [by vm_compute|].
  eexists. split; [vm_compute; reflexivity|].
  split; repeat constructor.
Qed.

(** ** The matcher: the returned list *)

(** C8. The list that the matcher returns has no path twice, and it holds
    exactly the paths that were appended, however often each of them
    was. *)
Theorem returned_paths_are_distinct (albums photos : name_to_files) :
  NoDup (duplicate_paths albums photos)
  ∧ ∀ x, x ∈ duplicate_paths albums photos
         ↔ x ∈ duplicates (compare_groupings albums photos).
Proof.
  split.
  - unfold duplicate_paths, list_of_set. apply NoDup_elements.
  - intros x. apply elem_of_duplicate_paths.
Qed.

(** ** The grouping walk *)

Lemma for_each_invariant {A S} (P : S → Prop) (body : S → A → result S)
  (l : list A) (s s' : S) :
  P s →
  (∀ s x s', x ∈ l → P s → body s x = Ok s' → P s') →
  for_each body l s = Ok s' → P s'.
Proof.
  revert s. induction l as [|x l IH]; intros s Hs Hbody; cbn.
  - by intros [= <-].
  - destruct (body s x) as [s1|e] eqn:E; cbn; [|done].
    apply IH.
    + eapply Hbody; [constructor | done | done].
    + intros t y t' Hy. apply Hbody. by constructor.
Qed.

Lemma stored_dict_append d title obj x :
  stored (dict_append d title obj) x ↔ x = obj ∨ stored d x.
Proof.
  unfold stored. induction d as [|[k l] d IH]; cbn.
  - split.
    + intros (t & l & Hin & Hx). apply list_elem_of_singleton in Hin as [= -> ->].
      left. by apply list_elem_of_singleton in Hx.
    + intros [->|(t & l & Hin & _)]; [|by apply elem_of_nil in Hin].
      exists title, [obj]. split; constructor.
  - destruct (key_eqb title k).
    + split.
      * intros (t & l' & Hin & Hx).
        apply elem_of_cons in Hin as [[= -> ->]|Hin].
        -- apply elem_of_app in Hx as [Hx|Hx].
           ++ right. exists k, l. split; [constructor | done].
           ++ left. by apply list_elem_of_singleton in Hx.
        -- right. exists t, l'. split; [by constructor | done].
      * intros [->|(t & l' & Hin & Hx)].
        -- exists k, (l ++ [obj]). split; [constructor|].
           apply elem_of_app. right. constructor.
        -- apply elem_of_cons in Hin as [[= -> ->]|Hin].
           ++ exists k, (l ++ [obj]). split; [constructor|].
              apply elem_of_app. by left.
           ++ exists t, l'. split; [by constructor | done].
    + split.
      * intros (t & l' & Hin & Hx).
        apply elem_of_cons in Hin as [[= -> ->]|Hin].
        -- right. exists k, l. split; [constructor | done].
        -- destruct (proj1 IH) as [->|(t' & l'' & Hin' & Hx')];
             [by exists t, l' | by left |].
           right. exists t', l''. split; [by constructor | done].
      * intros [->|(t & l' & Hin & Hx)].
        -- destruct (proj2 IH) as (t' & l'' & Hin' & Hx'); [by left|].
           exists t', l''. split; [by constructor | done].
        -- apply elem_of_cons in Hin as [[= -> ->]|Hin].
           ++ exists k, l. split; [constructor | done].
           ++ destruct (proj2 IH) as (t' & l'' & Hin' & Hx');
                [right; by exists t, l'|].
              exists t', l''. split; [by constructor | done].
Qed.

Lemma group_file_stored fs root acc file acc' x :
  group_file fs root acc file = Ok acc' →
  stored acc' x →
  stored acc x
  ∨ (Str.endswith file json_ext = false
     ∧ file_path x = Path.join root file
     ∧ ((load_metadata fs (file_path x) = Ok None
         ∧ json_path x = EmptyString)
        ∨ (∃ found, load_metadata fs (file_path x) = Ok (Some found)
                    ∧ json_path x = path found))).
Proof.
  unfold group_file. destruct (Str.endswith file json_ext) eqn:E.
  - intros [= <-]. by left.
  - destruct (load_metadata fs (Path.join root file)) as [[found|]|e] eqn:L;
      cbn; [| |done].
    + destruct (get_photo_taken_time (data found)) as [taken|e]; cbn; [|done].
      destruct (get_title (data found)) as [title|e]; cbn; [|done].
      intros [= <-] [->|H]%stored_dict_append; [|by left].
      right. cbn. repeat split. right. by exists found.
    + intros [= <-] [->|H]%stored_dict_append; [|by left].
      right. cbn. repeat split. by left.
Qed.

Lemma grouping_stores_walked_files fs directory d x :
  group_files_by_name_and_metadata fs directory = Ok d →
  stored d x → walked fs directory x.
Proof.
  unfold group_files_by_name_and_metadata. intros Hrun. revert x.
  eapply (for_each_invariant
            (fun d => ∀ x, stored d x → walked fs directory x));
    [ | | exact Hrun].
  - intros x (t & l & Hin & _). by apply elem_of_nil in Hin.
  - intros s [root files] s' Hentry Hs Hinner. cbn in Hinner.
    eapply (for_each_invariant
              (fun d => ∀ x, stored d x → walked fs directory x));
      [exact Hs | | exact Hinner].
    intros t file t' Hfile Ht Hstep x Hx.
    destruct (group_file_stored _ _ _ _ _ _ Hstep Hx)
      as [Hold|(Hjson & Hpath & Hside)]; [by apply Ht|].
    by exists root, files, file.
Qed.

(** ** The matcher: where the returned paths come from *)

Lemma compare_title_rows albums title photos_files album_files x :
  dict_get albums title = Some album_files →
  1 < length photos_files ∨ 1 < length album_files →
  x ∈ duplicates (compare_title albums initial_state (title, photos_files))
  ↔ ∃ gp alb, gp ∈ photos_files ∧ alb ∈ album_files
              ∧ compared_equal album_files gp alb = true
              ∧ x ∈ paths_of gp.
Proof.
  intros Hget Hlen.
  destruct photos_files as [|gp0 [|gp1 prest]].
  - unfold compare_title. rewrite Hget. cbn. split.
    + intros H. by apply elem_of_nil in H.
    + intros (gp & alb & Hgp & _). by apply elem_of_nil in Hgp.
  - destruct Hlen as [Hlen|Hlen]; [cbn in Hlen; lia|].
    rewrite (compare_title_one_many _ _ _ _ _ Hget Hlen).
    rewrite duplicates_scan_albums. cbn [duplicates logging initial_state app].
    rewrite elem_of_flat_map_if. unfold compared_equal.
    replace (length album_files =? 1)%nat with false
      by (symmetry; apply Nat.eqb_neq; lia).
    split.
    + intros (alb & Halb & Ht & Hx). exists gp0, alb.
      repeat split; [constructor | done..].
    + intros (gp & alb & Hgp & Halb & Ht & Hx).
      apply list_elem_of_singleton in Hgp as ->. by exists alb.
  - destruct album_files as [|alb0 [|alb1 arest]].
    + unfold compare_title. rewrite Hget. cbn. split.
      * intros H. by apply elem_of_nil in H.
      * intros (gp & alb & _ & Halb & _). by apply elem_of_nil in Halb.
    + rewrite (compare_title_many_one _ _ _ _ _ Hget) by (cbn; lia).
      rewrite duplicates_scan_photos.
      cbn [duplicates logging initial_state app].
      rewrite elem_of_flat_map_if. unfold compared_equal. cbn [length Nat.eqb].
      split.
      * intros (gp & Hgp & Ht & Hx). exists gp, alb0.
        repeat split; [done | constructor | done..].
      * intros (gp & alb & Hgp & Halb & Ht & Hx).
        apply list_elem_of_singleton in Halb as ->. by exists gp.
    + rewrite (compare_title_many_many _ _ _ _ _ Hget) by (cbn; lia).
      rewrite duplicates_scan_all.
      cbn [duplicates logging initial_state app].
      rewrite elem_of_flat_map_if. unfold compared_equal.
      cbn [length Nat.eqb].
      split.
      * intros (gp & Hgp & Ht & Hx).
        apply existsb_elem_of in Ht as (alb & Halb & Ht). by exists gp, alb.
      * intros (gp & alb & Hgp & Halb & Ht & Hx). exists gp.
        repeat split; [done | | done].
        apply existsb_elem_of. by exists alb.
Qed.

Lemma compare_title_marks albums title photos_files x :
  x ∈ duplicates (compare_title albums initial_state (title, photos_files))
  ↔ ∃ album_files gp,
      dict_get albums title = Some album_files
      ∧ marked album_files photos_files gp
      ∧ x ∈ paths_of gp.
Proof.
  destruct (dict_get albums title) as [album_files|] eqn:Hget.
  2: { rewrite compare_title_absent by done. split.
       - by intros ?%elem_of_nil.
       - by intros (? & ? & [=] & _). }
  destruct (decide (1 < length photos_files ∨ 1 < length album_files))
    as [Hlen|Hlen].
  - rewrite (compare_title_rows _ _ _ _ _ Hget Hlen). split.
    + intros (gp & alb & Hgp & Halb & Ht & Hx). exists album_files, gp.
      split; [done|]. split; [|done]. split; [done|]. right.
      split; [done|]. by exists alb.
    + intros (af & gp & [= <-] & [Hgp [[H1 H2]|[_ (alb & Halb & Ht)]]] & Hx).
      * lia.
      * by exists gp, alb.
  - destruct photos_files as [|gp0 [|gp1 prest]];
      [| |exfalso; apply Hlen; left; cbn; lia].
    + unfold compare_title. rewrite Hget. split.
      * destruct album_files; by intros ?%elem_of_nil.
      * intros (af & gp & _ & [Hgp _] & _). by apply elem_of_nil in Hgp.
    + destruct album_files as [|alb0 [|alb1 arest]];
        [| |exfalso; apply Hlen; right; cbn; lia].
      * unfold compare_title. rewrite Hget. split.
        -- by intros ?%elem_of_nil.
        -- intros (af & gp & [= <-] & [_ [[_ H]|[_ (alb & Halb & _)]]] & _).
           ++ done.
           ++ by apply elem_of_nil in Halb.
      * rewrite (compare_title_one_one _ _ _ _ _ Hget).
        cbn [duplicates mark initial_state app]. split.
        -- intros Hx. exists [alb0], gp0. split; [done|].
           split; [|done]. split; [constructor|]. by left.
        -- intros (af & gp & _ & [Hgp _] & Hx).
           by apply list_elem_of_singleton in Hgp as ->.
Qed.

Lemma elem_of_paths_of gp x :
  x ∈ paths_of gp ↔ x = file_path gp ∨ x = json_path gp.
Proof.
  unfold paths_of. by rewrite elem_of_cons, list_elem_of_singleton.
Qed.

Lemma find_duplicates_marked fs albums_directory photos_directory out :
  find_duplicates fs albums_directory photos_directory = Ok out →
  ∃ albums photos,
    group_files_by_name_and_metadata fs albums_directory = Ok albums
    ∧ group_files_by_name_and_metadata fs photos_directory = Ok photos
    ∧ (∀ x, x ∈ out
            ↔ ∃ title photos_files album_files gp,
                (title, photos_files) ∈ photos
                ∧ dict_get albums title = Some album_files
                ∧ marked album_files photos_files gp
                ∧ (x = file_path gp ∨ x = json_path gp))
    ∧ (∀ title photos_files gp,
         (title, photos_files) ∈ photos → gp ∈ photos_files →
         walked fs photos_directory gp).
Proof.
  unfold find_duplicates.
  destruct (group_files_by_name_and_metadata fs albums_directory)
    as [albums|e] eqn:Ha; cbn; [|done].
  destruct (group_files_by_name_and_metadata fs photos_directory)
    as [photos|e] eqn:Hp; cbn; [|done].
  intros [= <-]. exists albums, photos. split; [done|]. split; [done|]. split.
  - intros x. rewrite elem_of_duplicate_paths, elem_of_compare_groupings.
    split.
    + intros ([title photos_files] & Hitem & Hx).
      apply compare_title_marks in Hx as (album_files & gp & Hget & Hm & Hx).
      exists title, photos_files, album_files, gp.
      by rewrite <- elem_of_paths_of.
    + intros (title & photos_files & album_files & gp & Hitem & Hget & Hm & Hx).
      exists (title, photos_files). split; [done|].
      apply compare_title_marks. exists album_files, gp.
      by rewrite elem_of_paths_of.
  - intros title photos_files gp Hitem Hgp.
    apply (grouping_stores_walked_files _ _ _ _ Hp).
    by exists title, photos_files.
Qed.

(** C5, as the code has it.  What [find_duplicates] returns is exactly
    the [file_path] and the [json_path] of the marked records: a value is
    returned if and only if it is one of these two fields of a record of
    the flat export that is stored under a title which the album grouping
    has too and that was marked there, without any test when the title
    has one record on each side and by an equal timestamp otherwise.  A
    title that one of the two groupings lacks contributes nothing.  Every
    record of the flat export stands for a media file met by the walk,
    and its [json_path] is the path of the sidecar loaded for the file,
    or the empty string when none was loaded. *)
Theorem returned_paths_come_from_matched_records
  (fs : filesystem) (albums_directory photos_directory : string)
  (out : list string) :
  find_duplicates fs albums_directory photos_directory = Ok out →
  ∃ albums photos,
    group_files_by_name_and_metadata fs albums_directory = Ok albums
    ∧ group_files_by_name_and_metadata fs photos_directory = Ok photos
    ∧ (∀ x, x ∈ out
            ↔ ∃ title photos_files album_files gp,
                (title, photos_files) ∈ photos
                ∧ dict_get albums title = Some album_files
                ∧ marked album_files photos_files gp
                ∧ (x = file_path gp ∨ x = json_path gp))
    ∧ (∀ title photos_files gp,
         (title, photos_files) ∈ photos → gp ∈ photos_files →
         walked fs photos_directory gp)
    ∧ (∀ title photos_files st,
         (title, photos_files) ∈ photos → dict_get albums title = None →
         compare_title albums st (title, photos_files) = st).
Proof.
  intros Hfind.
  destruct (find_duplicates_marked _ _ _ _ Hfind)
    as (albums & photos & Ha & Hp & Hout & Hwalk).
  exists albums, photos. repeat split; try done.
  - by apply Hout.
  - by apply Hout.
  - intros title photos_files st _ Hget. by apply compare_title_absent.
Qed.

Lemma returned_paths_come_from_matched_records_witness :
  ∃ albums photos,
    group_files_by_name_and_metadata single_fs "albums" = Ok albums
    ∧ group_files_by_name_and_metadata single_fs "photos" = Ok photos
    ∧ (∀ x, x ∈ ["photos/a.jpg"; EmptyString]
            ↔ ∃ title photos_files album_files gp,
                (title, photos_files) ∈ photos
                ∧ dict_get albums title = Some album_files
                ∧ marked album_files photos_files gp
                ∧ (x = file_path gp ∨ x = json_path gp))
    ∧ (∀ title photos_files gp,
         (title, photos_files) ∈ photos → gp ∈ photos_files →
         walked single_fs "photos" gp)
    ∧ (∀ title photos_files st,
         (title, photos_files) ∈ photos → dict_get albums title = None →
         compare_title albums st (title, photos_files) = st).
Proof.
  apply (returned_paths_come_from_matched_records single_fs "albums" "photos"
           ["photos/a.jpg"; EmptyString]).
  vm_compute. reflexivity.
Defined.

(** C5, the claim as written fails: with one file [a.jpg] on each side and
    no sidecar, the returned list holds the empty string next to the
    path of the file.  No sidecar was resolved for the file, and the
    empty string is not the path of anything in the tree. *)
Lemma empty_string_is_returned :
  find_duplicates single_fs "albums" "photos"
  = Ok ["photos/a.jpg"; EmptyString]
  ∧ group_files_by_name_and_metadata single_fs "photos"
    = Ok [(Some "a", [bare_obj "photos" "a.jpg"])]
  ∧ find_metadata_file single_fs "photos/a.jpg" = None
  ∧ load_metadata single_fs "photos/a.jpg" = Ok None
  ∧ os_path_exists single_fs EmptyString = false.
Proof. repeat split; by vm_compute. Qed.

(** ** The grouping walk: the title of a file *)

Lemma get_title_dict entries :
  get_title (PyDict entries)
  = Ok (match Py.lookup "title" entries with
        | Some title => Some (Str.lower (Py.str title))
        | None => None
        end).
Proof.
  unfold get_title. destruct entries as [|entry rest]; [done|].
  cbn [Py.truthy Py.contains Py.getitem bind].
  by destruct (Py.lookup "title" (entry :: rest)).
Qed.

Lemma dict_get_append d title obj :
  ∃ l, dict_get (dict_append d title obj) title = Some (l ++ [obj]).
Proof.
  induction d as [|[k l] d IH]; cbn.
  - exists []. by destruct title as [t|]; cbn; rewrite ?String.eqb_refl.
  - destruct (key_eqb title k) eqn:E; cbn; rewrite E; [by exists l | done].
Qed.

(** C3, as the code has it.  A media file is stored under the lower-cased
    base name without extension only when no sidecar was loaded for it.
    When one was loaded, the title is what [get_title] makes of it: for
    a sidecar that is an object, the lower-cased text of its [title]
    entry, also when that text is empty, and [None] when the object has
    no [title] entry.  In each case the record ends the list kept under
    that title. *)
Theorem title_of_a_grouped_file
  (fs : filesystem) (root file : string) (acc : name_to_files) :
  Str.endswith file json_ext = false →
  (load_metadata fs (Path.join root file) = Ok None →
   group_file fs root acc file
   = Ok (dict_append acc (Some (Str.lower (fst (Path.splitext file))))
           {| base_name := file;
              photo_taken_time := PyStr EmptyString;
              file_path := Path.join root file;
              json_path := EmptyString |}))
  ∧ (∀ found taken title,
       load_metadata fs (Path.join root file) = Ok (Some found) →
       get_photo_taken_time (data found) = Ok taken →
       get_title (data found) = Ok title →
       group_file fs root acc file
       = Ok (dict_append acc title
               {| base_name := file;
                  photo_taken_time := taken;
                  file_path := Path.join root file;
                  json_path := path found |}))
  ∧ (∀ entries,
       get_title (PyDict entries)
       = Ok (match Py.lookup "title" entries with
             | Some title => Some (Str.lower (Py.str title))
             | None => None
             end))
  ∧ (∀ title obj,
       ∃ l, dict_get (dict_append acc title obj) title = Some (l ++ [obj])).
Proof.
  intros Hmedia. unfold group_file. rewrite Hmedia.
  split; [by intros ->|]. split.
  - intros found taken title -> Htaken Htitle. cbn. by rewrite Htaken, Htitle.
  - split; [apply get_title_dict | intros; apply dict_get_append].
Qed.

Lemma title_of_a_grouped_file_witness :
  group_file bare_fs "photos" [] "a.png"
  = Ok [(Some "a", [bare_obj "photos" "a.png"])]
  ∧ group_file untitled_fs "albums" [] "b.jpg"
    = Ok [(None,
           [{| base_name := "b.jpg";
               photo_taken_time := PyStr "100";
               file_path := "albums/b.jpg";
               json_path := "albums/b.jpg.json" |}])].
Proof.
  split.
  - apply (proj1 (title_of_a_grouped_file bare_fs "photos" "a.png" []
                    eq_refl)).
    vm_compute. reflexivity.
  - apply (proj1 (proj2 (title_of_a_grouped_file untitled_fs "albums" "b.jpg"
                           [] eq_refl))
             {| path := "albums/b.jpg.json";
                data := PyDict [("photoTakenTime",
                                 PyDict [("timestamp", PyStr "100")])] |}
             (PyStr "100") None).
    + vm_compute. reflexivity.
    + reflexivity.
    + reflexivity.
Defined.

(** C3, the claim as written fails: [a.jpg] has a sidecar whose title is
    empty and is stored under the empty title, [b.jpg] has a sidecar
    without title and is stored under [None]; neither is stored under
    its base name. *)
Lemma sidecar_without_title_is_not_grouped_by_name :
  ∃ a b,
    group_files_by_name_and_metadata untitled_fs "albums"
    = Ok [(Some EmptyString, [a]); (None, [b])]
    ∧ file_path a = "albums/a.jpg" ∧ file_path b = "albums/b.jpg"
    ∧ Str.lower (fst (Path.splitext "a.jpg")) = "a"
    ∧ Str.lower (fst (Path.splitext "b.jpg")) = "b"
    ∧ Some EmptyString ≠ Some "a" ∧ None ≠ Some "b".
Proof.
  eexists _, _. split; [vm_compute; reflexivity|].
  repeat split; done.
Qed.

(** C2, on a tree with a sidecar that is not JSON: the sidecar of [a.jpg]
    is found, [json.load] raises, and nothing between [load_metadata]
    and the caller of [find_duplicates] handles the exception, so the
    walk never reaches [b.jpg] and no grouping is produced. *)
Theorem unparsable_sidecar_aborts_the_run :
  find_metadata_file broken_fs "albums/a.jpg" = Some "albums/a.jpg.json"
  ∧ json_load broken_fs "albums/a.jpg.json" = Raise JSONDecodeError
  ∧ load_metadata broken_fs "albums/a.jpg" = Raise JSONDecodeError
  ∧ group_file broken_fs "albums" [] "a.jpg" = Raise JSONDecodeError
  ∧ group_files_by_name_and_metadata broken_fs "albums"
    = Raise JSONDecodeError
  ∧ find_duplicates broken_fs "albums" "photos" = Raise JSONDecodeError.
Proof. repeat split; by vm_compute. Qed.

(** ** Sidecar lookup: the order of the tests *)

Lemma find_metadata_loop_first directory base_name base_name_without_counter
  ext counter files :
  let accept := fun file =>
    Str.endswith file json_ext
    && entry_matches base_name base_name_without_counter ext counter file in
  (Forall (fun f => accept f = false) files
   ∧ find_metadata_loop directory base_name base_name_without_counter ext
       counter files = None)
  ∨ (∃ before file after,
       files = before ++ file :: after
       ∧ Forall (fun f => accept f = false) before
       ∧ accept file = true
       ∧ find_metadata_loop directory base_name base_name_without_counter
           ext counter files = Some (Path.join directory file)).
Proof.
  intros accept. induction files as [|file rest IH].
  - left. split; [constructor | done].
  - destruct (accept file) eqn:E.
    + right. exists [], file, rest. repeat split; [constructor | done |].
      unfold accept, entry_matches in E. cbn [find_metadata_loop].
      destruct (Str.endswith file json_ext); [|done]. cbn in E.
      repeat (match goal with
              | |- context [if ?b then _ else _] => destruct b
              end; try done).
    + assert (Hskip :
        find_metadata_loop directory base_name base_name_without_counter
          ext counter (file :: rest)
        = find_metadata_loop directory base_name base_name_without_counter
            ext counter rest).
      { unfold accept, entry_matches in E. cbn [find_metadata_loop].
        destruct (Str.endswith file json_ext); [|done]. cbn in E.
        repeat (match goal with
                | |- context [if ?b then _ else _] => destruct b
                end; try done). }
      rewrite Hskip.
      destruct IH as [[Hall Hnone]|(before & f & after & -> & Hb & Hf & Hsome)].
      * left. split; [by constructor | done].
      * right. exists (file :: before), f, after.
        repeat split; [by constructor | done | done].
Qed.

(** C4, as the code has it.  The lookup returns the first entry, in the
    order in which the directory lists its entries, that ends in
    [.json] and passes any of the four tests; the order of the tests
    only decides which of them is tried first on one entry. *)
Theorem first_listed_sidecar_wins (fs : filesystem) (media_file : string) :
  let directory := Path.dirname media_file in
  let listing := os_listdir fs directory in
  (Forall (fun f => sidecar_test media_file f = false) listing
   ∧ find_metadata_file fs media_file = None)
  ∨ (∃ before file after,
       listing = before ++ file :: after
       ∧ Forall (fun f => sidecar_test media_file f = false) before
       ∧ sidecar_test media_file file = true
       ∧ find_metadata_file fs media_file = Some (Path.join directory file)).
Proof.
  unfold find_metadata_file, sidecar_test.
  destruct (Path.splitext (Path.basename media_file)) as [stem ext].
  destruct (split_counter stem) as [base0 counter].
  apply find_metadata_loop_first.
Qed.

(** C4, the claim as written fails: the directory lists
    [photo.jpg.supplemental-metadata.json] before [photo.jpg.json].  The
    second has the exact form, the first only passes the second test,
    and the first is returned; listed the other way round, the exact
    one is returned. *)
Lemma listing_order_beats_pattern_order :
  os_listdir suffixed_first_fs "d"
  = ["photo.jpg"; "photo.jpg.supplemental-metadata.json"; "photo.jpg.json"]
  ∧ String.eqb "photo.jpg.json" ("photo.jpg" +:+ json_ext) = true
  ∧ String.eqb "photo.jpg.supplemental-metadata.json"
      ("photo.jpg" +:+ json_ext) = false
  ∧ Re.re_match (case2 "photo.jpg") "photo.jpg.supplemental-metadata.json"
    = true
  ∧ find_metadata_file suffixed_first_fs "d/photo.jpg"
    = Some "d/photo.jpg.supplemental-metadata.json"
  ∧ find_metadata_file exact_first_fs "d/photo.jpg"
    = Some "d/photo.jpg.json".
Proof. repeat split; by vm_compute. Qed.

(** ** Sidecar lookup: folding a pattern *)

Lemma lower_char_idemp c : Str.lower_char (Str.lower_char c) = Str.lower_char c.
Proof. destruct c as [[] [] [] [] [] [] [] []]; reflexivity. Qed.








Lemma chars_of_chars l : Str.chars (Str.of_chars l) = l.
Proof. apply list_ascii_of_string_of_list_ascii. Qed.

Lemma chars_lower s : Str.chars (Str.lower s) = map Str.lower_char (Str.chars s).
Proof. apply chars_of_chars. Qed.







(** ** The remover *)

Lemma os_remove_raises p d e : os_remove p d = Raise e → is_OSError e = true.
Proof.
  unfold os_remove. destruct (decide (p ∈ present d)); [|by intros [= <-]].
  destruct (faults d !! p) as [[]|]; by intros [= <-].
Qed.

Lemma remove_one_ok d lg p :
  ∃ d', remove_one (d, lg) p = Ok (d', lg ++ attempt_log d p)
        ∧ faults d' = faults d
        ∧ (∀ q, q ∈ present d'
                ↔ q ∈ present d ∧ (q ≠ p ∨ is_Some (faults d !! p)))
        ∧ (∀ q e, os_remove q d = Raise e → os_remove q d' = Raise e).
Proof.
  unfold remove_one, attempt_log.
  destruct (os_remove p d) as [d'|e] eqn:E.
  - exists d'. split; [done|].
    unfold os_remove in E. destruct (decide (p ∈ present d)) as [Hp|]; [|done].
    destruct (faults d !! p) as [f|] eqn:F; [done|].
    injection E as <-. cbn. split; [done|]. split.
    + intros q. rewrite elem_of_difference, elem_of_singleton.
      split; [intros [? ?]; by split; [|left]|].
      intros [? [?|[? [=]]]]. done.
    + intros q e. unfold os_remove; cbn.
      destruct (decide (q ∈ present d)) as [Hq|Hq].
      * destruct (faults d !! q) as [f|] eqn:Fq; [|done].
        intros [= <-]. rewrite decide_True; [done|].
        apply elem_of_difference. split; [done|].
        intros ->%elem_of_singleton. congruence.
      * intros [= <-]. rewrite decide_False; [done|].
        intros [? _]%elem_of_difference. done.
  - rewrite (os_remove_raises _ _ _ E). exists d.
    split; [by rewrite <- app_assoc|]. split; [done|]. split; [|done].
    intros q. split; [|by intros [? _]].
    intros Hq. split; [done|].
    unfold os_remove in E. destruct (decide (p ∈ present d)) as [Hp|Hp].
    + destruct (faults d !! p); [by right | done].
    + left. by intros ->.
Qed.

Lemma remove_run l d lg :
  ∃ d' ext,
    for_each remove_one l (d, lg) = Ok (d', lg ++ ext)
    ∧ faults d' = faults d
    ∧ (∀ q, q ∈ present d'
            ↔ q ∈ present d ∧ (q ∉ l ∨ is_Some (faults d !! q)))
    ∧ (∀ p, p ∈ l → Removing_duplicate p ∈ ext)
    ∧ (∀ p e, p ∈ l → os_remove p d = Raise e → Failed_to_remove p e ∈ ext).
Proof.
  revert d lg. induction l as [|p l IH]; intros d lg.
  - exists d, []. rewrite app_nil_r. split; [done|]. split; [done|].
    split; [|by split; intros ? **; exfalso; eapply elem_of_nil].
    intros q. split; [intros ?; split; [done|left; apply not_elem_of_nil]
                     | by intros [? _]].
  - destruct (remove_one_ok d lg p) as (d1 & Hone & Hf1 & Hp1 & Hstable).
    destruct (IH d1 (lg ++ attempt_log d p))
      as (d' & ext & Hrun & Hf & Hp & Hrem & Hfail).
    exists d', (attempt_log d p ++ ext).
    split; [cbn [for_each]; rewrite Hone; cbn [bind]; by rewrite app_assoc|].
    split; [congruence|]. split; [|split].
    + intros q. rewrite Hp, Hp1, Hf1, not_elem_of_cons. split.
      * intros [[Hq Hqp] Hl]. split; [done|].
        destruct Hl as [Hl|Hl]; [|by right].
        destruct Hqp as [Hqp|Hqp]; [by left|].
        destruct (decide (q = p)) as [->|Hne]; [by right | by left].
      * intros [Hq [[Hqp Hl]|Hs]].
        -- split; [split; [done | by left] | by left].
        -- split; [split; [done|] | by right].
           destruct (decide (q = p)) as [->|Hne]; [by right | by left].
    + intros q [->|Hq]%elem_of_cons; apply elem_of_app.
      * left. unfold attempt_log. constructor.
      * right. by apply Hrem.
    + intros q e [->|Hq]%elem_of_cons Hraise; apply elem_of_app.
      * left. unfold attempt_log. rewrite Hraise. do 2 constructor.
      * right. apply Hfail; [done|]. by apply Hstable.
Qed.

Lemma remove_run_failing l d lg :
  (∀ p, p ∈ l → ∃ e, os_remove p d = Raise e) →
  for_each remove_one l (d, lg) = Ok (d, lg ++ flat_map (attempt_log d) l).
Proof.
  revert lg. induction l as [|p l IH]; intros lg Hall; cbn [for_each flat_map].
  - by rewrite app_nil_r.
  - destruct (Hall p) as [e He]; [constructor|].
    unfold remove_one at 1. rewrite He, (os_remove_raises _ _ _ He).
    cbn [bind].
    rewrite IH by (intros q Hq; apply Hall; by constructor).
    unfold attempt_log at 2. rewrite He. cbn. by rewrite <- !app_assoc.
Qed.

(** C9. The remover tries every path of its list, whatever happened to
    the paths before it: it always returns, every path it was given is
    logged, a path whose removal is refused or which is missing gets its
    failure logged, and what is left on the storage is what was there
    minus the listed paths whose removal is not refused.  Run again on
    the same list it returns again, every attempt fails (with
    [FileNotFoundError] for the paths removed by the first run) and the
    storage is left as the first run left it. *)
Theorem removal_continues_and_can_be_repeated (l : list string) (d : disk) :
  ∃ d1 log1,
    remove_duplicates l d = Ok (d1, log1)
    ∧ faults d1 = faults d
    ∧ (∀ q, q ∈ present d1
            ↔ q ∈ present d ∧ (q ∉ l ∨ is_Some (faults d !! q)))
    ∧ (∀ p, p ∈ l → Removing_duplicate p ∈ log1)
    ∧ (∀ p e, p ∈ l → os_remove p d = Raise e → Failed_to_remove p e ∈ log1)
    ∧ (∀ p, p ∈ l →
         ∃ e, os_remove p d1 = Raise e ∧ is_OSError e = true
              ∧ (faults d !! p = None → e = FileNotFoundError))
    ∧ remove_duplicates l d1 = Ok (d1, flat_map (attempt_log d1) l).
Proof.
  unfold remove_duplicates.
  destruct (remove_run l d []) as (d1 & log1 & Hrun & Hf & Hp & Hrem & Hfail).
  exists d1, log1. rewrite Hrun. cbn [app].
  assert (Hagain : ∀ p, p ∈ l →
            ∃ e, os_remove p d1 = Raise e ∧ is_OSError e = true
                 ∧ (faults d !! p = None → e = FileNotFoundError)).
  { intros p Hl. unfold os_remove.
    destruct (decide (p ∈ present d1)) as [Hin|Hout].
    - apply Hp in Hin as [_ [Hnl|[f Hs]]]; [done|].
      rewrite Hf, Hs. exists (fault_error f).
      split; [done|]. split; [by destruct f | congruence].
    - by exists FileNotFoundError. }
  repeat split; try done.
  - by apply Hp.
  - by apply Hp.
  - intros [? ?]. by apply Hp.
  - change (flat_map (attempt_log d1) l) with ([] ++ flat_map (attempt_log d1) l).
    apply remove_run_failing. intros p Hl.
    destruct (Hagain p Hl) as (e & He & _). by exists e.
Qed.

Lemma removal_continues_and_can_be_repeated_witness :
  ∃ d1 log1,
    remove_duplicates ["photos/a.jpg"; "photos/b.jpg"; "gone.jpg";
                       "photos/c.jpg"] guarded_disk = Ok (d1, log1)
    ∧ present d1 = {["photos/b.jpg"]}
    ∧ Failed_to_remove "photos/b.jpg" PermissionError ∈ log1
    ∧ Failed_to_remove "gone.jpg" FileNotFoundError ∈ log1
    ∧ ∃ log2,
        remove_duplicates ["photos/a.jpg"; "photos/b.jpg"; "gone.jpg";
                           "photos/c.jpg"] d1 = Ok (d1, log2).
Proof.
  destruct (removal_continues_and_can_be_repeated
              ["photos/a.jpg"; "photos/b.jpg"; "gone.jpg"; "photos/c.jpg"]
              guarded_disk)
    as (d1 & log1 & Hrun & Hf & Hp & Hrem & Hfail & Hagain & Hsecond).
  exists d1, log1. split; [exact Hrun|]. split; [|split; [|split]].
  - apply set_eq. intros q. rewrite Hp. unfold guarded_disk; cbn.
    rewrite !elem_of_union, !elem_of_singleton, !not_elem_of_cons.
    split.
    + intros [[[->| ->]| ->] [Hn|[f Hs]]].
      * by destruct Hn as [? _].
      * by rewrite lookup_singleton_ne in Hs.
      * done.
      * done.
      * by destruct Hn as (_ & _ & _ & ? & _).
      * by rewrite lookup_singleton_ne in Hs.
    + intros ->. split; [by left; right|]. right.
      rewrite lookup_singleton_eq. by eexists.
  - apply Hfail; [by repeat constructor|]. reflexivity.
  - apply Hfail; [by repeat constructor|]. reflexivity.
  - by eexists.
Defined.


(** ** The grouping walk: what a grouping looks like *)

Lemma key_eqb_eq a b : key_eqb a b = true ↔ a = b.
Proof.
  destruct a as [x|], b as [y|]; cbn; try (split; done).
  rewrite String.eqb_eq. split; [by intros -> | by intros [= ->]].
Qed.

Lemma key_eqb_refl a : key_eqb a a = true.
Proof. by apply key_eqb_eq. Qed.

Lemma elem_of_titles d k : k ∈ titles d ↔ ∃ l, (k, l) ∈ d.
Proof.
  unfold titles. rewrite list_elem_of_In, in_map_iff. split.
  - intros ([k' l] & <- & Hin). exists l. by apply list_elem_of_In.
  - intros (l & Hin). exists (k, l). split; [done | by apply list_elem_of_In].
Qed.

Lemma titles_dict_append d title obj :
  titles (dict_append d title obj)
  = if bool_decide (title ∈ titles d) then titles d else titles d ++ [title].
Proof.
  unfold titles. induction d as [|[k l] d IH]; cbn; [done|].
  destruct (key_eqb title k) eqn:E; cbn.
  - apply key_eqb_eq in E as ->.
    rewrite bool_decide_eq_true_2; [done | constructor].
  - rewrite IH.
    assert (title ≠ k) as Hne by (intros ->; by rewrite key_eqb_refl in E).
    destruct (bool_decide (title ∈ map fst d)) eqn:B.
    + apply bool_decide_eq_true in B.
      rewrite bool_decide_eq_true_2; [done | by constructor].
    + apply bool_decide_eq_false in B.
      rewrite bool_decide_eq_false_2; [done|].
      by intros [?|?]%elem_of_cons.
Qed.

Lemma dict_get_elem_of d k l :
  NoDup (titles d) → (k, l) ∈ d → dict_get d k = Some l.
Proof.
  induction d as [|[k' l'] d IH]; cbn; [by intros _ ?%elem_of_nil|].
  intros [Hnotin Hnd]%NoDup_cons [[= -> ->]|Hin]%elem_of_cons.
  - by rewrite key_eqb_refl.
  - destruct (key_eqb k k') eqn:E; [|by apply IH].
    apply key_eqb_eq in E as ->. exfalso. apply Hnotin.
    apply elem_of_titles. by exists l.
Qed.

Lemma dict_append_nonempty d title obj :
  Forall (fun item => snd item ≠ []) d →
  Forall (fun item => snd item ≠ []) (dict_append d title obj).
Proof.
  induction d as [|[k l] d IH]; cbn; intros Hall.
  - by repeat constructor.
  - apply Forall_cons in Hall as [Hl Hd].
    destruct (key_eqb title k).
    + constructor; [|done]. cbn. by destruct l.
    + constructor; [done | by apply IH].
Qed.

Lemma dict_append_NoDup d title obj :
  NoDup (titles d) → NoDup (titles (dict_append d title obj)).
Proof.
  intros Hnd. rewrite titles_dict_append.
  destruct (bool_decide (title ∈ titles d)) eqn:B; [done|].
  apply bool_decide_eq_false in B.
  apply NoDup_app. split; [done|]. split; [|apply NoDup_singleton].
  intros k Hk ->%list_elem_of_singleton. done.
Qed.

(** X1.  A grouping that the walk returns is a well-formed dictionary:
    no title occurs twice among its items, the list under a title is
    never empty, and the list that an item carries is the one that a
    lookup of its title returns. *)
Theorem grouping_is_a_dictionary (fs : filesystem) (directory : string)
  (d : name_to_files) :
  group_files_by_name_and_metadata fs directory = Ok d →
  NoDup (titles d)
  ∧ Forall (fun item => snd item ≠ []) d
  ∧ ∀ title l, (title, l) ∈ d → dict_get d title = Some l.
Proof.
  intros Hrun.
  cut (NoDup (titles d) ∧ Forall (fun item => snd item ≠ []) d).
  { intros [Hnd Hne]. repeat split; try done.
    intros title l. by apply dict_get_elem_of. }
  unfold group_files_by_name_and_metadata in Hrun.
  eapply (for_each_invariant
            (fun d => NoDup (titles d) ∧ Forall (fun item => snd item ≠ []) d));
    [ | | exact Hrun].
  - split; constructor.
  - intros s [root files] s' _ Hs Hinner. cbn in Hinner.
    eapply (for_each_invariant
              (fun d => NoDup (titles d)
                        ∧ Forall (fun item => snd item ≠ []) d));
      [exact Hs | | exact Hinner].
    intros t file t' _ [Hnd Hne] Hstep. unfold group_file in Hstep.
    destruct (Str.endswith file json_ext); [by injection Hstep as <-|].
    destruct (load_metadata fs (Path.join root file)) as [[found|]|e];
      cbn in Hstep; [| |done].
    + destruct (get_photo_taken_time (data found)) as [taken|e];
        cbn in Hstep; [|done].
      destruct (get_title (data found)) as [title|e]; cbn in Hstep; [|done].
      injection Hstep as <-.
      split; [by apply dict_append_NoDup | by apply dict_append_nonempty].
    + injection Hstep as <-.
      split; [by apply dict_append_NoDup | by apply dict_append_nonempty].
Qed.

Lemma grouping_is_a_dictionary_witness :
  ∃ d, group_files_by_name_and_metadata untitled_fs "albums" = Ok d
       ∧ NoDup (titles d)
       ∧ Forall (fun item => snd item ≠ []) d
       ∧ ∀ title l, (title, l) ∈ d → dict_get d title = Some l.
Proof.
  eexists. split; [vm_compute; reflexivity|].
  apply (grouping_is_a_dictionary untitled_fs "albums").
  vm_compute. reflexivity.
Defined.

(** ** The grouping walk: every media file, once *)

Lemma for_each_prefix_invariant {A S} (P : list A → S → Prop)
  (body : S → A → result S) (l : list A) (s s' : S) :
  P [] s →
  (∀ before x t t', P before t → body t x = Ok t' → P (before ++ [x]) t') →
  for_each body l s = Ok s' → P l s'.
Proof.
  intros Hstart Hstep.
  cut (∀ before t, P before t → for_each body l t = Ok s' → P (before ++ l) s').
  { intros H. by apply (H [] s). }
  induction l as [|x l IH]; intros before t Ht; cbn.
  - intros [= <-]. by rewrite app_nil_r.
  - destruct (body t x) as [t1|e] eqn:E; cbn; [|done].
    intros Hrest. rewrite (cons_middle x before l), app_assoc.
    apply (IH _ t1); [by eapply Hstep | done].
Qed.

Lemma all_objs_dict_append d title obj :
  all_objs (dict_append d title obj) ≡ₚ all_objs d ++ [obj].
Proof.
  unfold all_objs. induction d as [|[k l] d IH]; cbn; [done|].
  destruct (key_eqb title k); cbn.
  - rewrite <- !app_assoc. apply Permutation_app_head, Permutation_app_comm.
  - by rewrite IH, app_assoc.
Qed.

Lemma group_file_paths fs root acc file acc' :
  group_file fs root acc file = Ok acc' →
  map file_path (all_objs acc')
  ≡ₚ map file_path (all_objs acc) ++ media_of_entry (root, [file]).
Proof.
  unfold group_file, media_of_entry. cbn [fst snd List.filter].
  destruct (Str.endswith file json_ext); cbn [negb map].
  - intros [= <-]. by rewrite app_nil_r.
  - destruct (load_metadata fs (Path.join root file)) as [[found|]|e];
      cbn; [| |done].
    + destruct (get_photo_taken_time (data found)) as [taken|e]; cbn; [|done].
      destruct (get_title (data found)) as [title|e]; cbn; [|done].
      intros [= <-]. by rewrite all_objs_dict_append, map_app.
    + intros [= <-]. by rewrite all_objs_dict_append, map_app.
Qed.

Lemma media_of_entry_snoc root files file :
  media_of_entry (root, files ++ [file])
  = media_of_entry (root, files) ++ media_of_entry (root, [file]).
Proof.
  unfold media_of_entry. cbn [fst snd].
  by rewrite List.filter_app, map_app.
Qed.

Lemma count_files_length fs directory :
  count_files fs directory = length (media_paths fs directory).
Proof.
  unfold count_files, media_paths.
  cut (∀ entries n,
         fold_left
           (fun file_count (entry : string * list string) =>
              fold_left
                (fun file_count file =>
                   if negb (Str.endswith file json_ext) then S file_count
                   else file_count)
                (snd entry) file_count)
           entries n
         = n + length (flat_map media_of_entry entries)).
  { intros H. by rewrite H. }
  induction entries as [|[root files] entries IH]; intros n;
    cbn [fold_left flat_map fst snd length]; [lia|].
  rewrite IH, length_app. unfold media_of_entry at 2. cbn [fst snd].
  rewrite length_map.
  cut (∀ m, fold_left
              (fun file_count file =>
                 if negb (Str.endswith file json_ext) then S file_count
                 else file_count)
              files m
            = m + length (List.filter
                            (fun file => negb (Str.endswith file json_ext))
                            files)).
  { intros H. rewrite H. lia. }
  induction files as [|file files IHf]; intros m;
    cbn [fold_left List.filter length]; [lia|].
  rewrite IHf. destruct (Str.endswith file json_ext); cbn [negb length]; lia.
Qed.

(** X2.  When the walk returns a grouping, the records of the grouping
    are the media files of the tree, each of them once: their paths are
    the paths of the files whose name does not end in [.json], up to
    order, and their number is what [count_files] of [count.py] counts
    in the same tree. *)
Theorem every_media_file_is_grouped_once (fs : filesystem)
  (directory : string) (d : name_to_files) :
  group_files_by_name_and_metadata fs directory = Ok d →
  map file_path (all_objs d) ≡ₚ media_paths fs directory
  ∧ length (all_objs d) = count_files fs directory.
Proof.
  intros Hrun.
  assert (Hperm : map file_path (all_objs d) ≡ₚ media_paths fs directory).
  { unfold group_files_by_name_and_metadata in Hrun. unfold media_paths.
    eapply (for_each_prefix_invariant
              (fun before acc =>
                 map file_path (all_objs acc)
                 ≡ₚ flat_map media_of_entry before));
      [ | | exact Hrun]; [done|].
    intros before [root files] t t' Ht Hinner. cbn in Hinner.
    rewrite flat_map_app. cbn [flat_map]. rewrite app_nil_r.
    eapply (for_each_prefix_invariant
              (fun done acc =>
                 map file_path (all_objs acc)
                 ≡ₚ flat_map media_of_entry before
                    ++ media_of_entry (root, done)));
      [ | | exact Hinner].
    - unfold media_of_entry at 2. cbn. by rewrite app_nil_r.
    - intros done file u u' Hu Hstep.
      rewrite (group_file_paths _ _ _ _ _ Hstep), Hu, media_of_entry_snoc.
      by rewrite app_assoc. }
  split; [done|].
  by rewrite count_files_length, <- Hperm, length_map.
Qed.

Lemma every_media_file_is_grouped_once_witness :
  ∃ d, group_files_by_name_and_metadata untitled_fs "albums" = Ok d
       ∧ map file_path (all_objs d) ≡ₚ ["albums/a.jpg"; "albums/b.jpg"]
       ∧ length (all_objs d) = 2.
Proof.
  eexists. split; [vm_compute; reflexivity|].
  apply (every_media_file_is_grouped_once untitled_fs "albums").
  vm_compute. reflexivity.
Defined.


(** ** The matcher: the counter and the log *)

Lemma balanced_mark alb gp st : balanced st → balanced (mark alb gp st).
Proof.
  intros [Hd Hc]. unfold balanced, mark; cbn [duplicates count_media log].
  rewrite length_app, List.filter_app, length_app. cbn. lia.
Qed.

Lemma balanced_logging title st :
  balanced st → balanced (logging (Group_listing title) st).
Proof.
  intros [Hd Hc]. unfold balanced, logging; cbn [duplicates count_media log].
  rewrite List.filter_app, length_app. cbn. lia.
Qed.

Lemma balanced_fold {A} (body : matcher_state → A → matcher_state) l st :
  (∀ s x, balanced s → balanced (body s x)) →
  balanced st → balanced (fold_left body l st).
Proof.
  intros Hbody. revert st. induction l as [|x l IH]; intros st Hst; cbn; [done|].
  by apply IH, Hbody.
Qed.

Lemma balanced_scan_until_match gp l st :
  balanced st → balanced (scan_until_match gp l st).
Proof.
  intros Hst. induction l as [|alb l IH]; cbn; [done|].
  destruct (same_time gp alb); [by apply balanced_mark | done].
Qed.

Lemma balanced_compare_title albums st item :
  balanced st → balanced (compare_title albums st item).
Proof.
  intros Hst. destruct item as [title photos_files]. unfold compare_title.
  destruct (dict_get albums title) as [album_files|]; [|done].
  destruct photos_files as [|gp0 ?]; [done|].
  destruct album_files as [|alb0 ?]; [done|].
  repeat (match goal with |- context [if ?b then _ else _] => destruct b end);
    try done.
  - by apply balanced_mark.
  - apply balanced_fold; [|by apply balanced_logging].
    intros s gp Hs. destruct (same_time alb0 gp); [by apply balanced_mark | done].
  - apply balanced_fold; [|by apply balanced_logging].
    intros s alb Hs. destruct (same_time gp0 alb); [by apply balanced_mark | done].
  - apply balanced_fold; [|by apply balanced_logging].
    intros s gp Hs. by apply balanced_scan_until_match.
Qed.

Lemma length_list_of_set l : (length (list_of_set l) ≤ length l)%nat.
Proof.
  unfold list_of_set.
  change (length (elements (list_to_set l : gset string)))
    with (size (list_to_set l : gset string)).
  induction l as [|x l IH]; cbn [list_to_set length].
  - by rewrite size_empty.
  - rewrite size_union_alt, size_singleton.
    assert (size ((list_to_set l : gset string) ∖ {[x]})
            ≤ size (list_to_set l : gset string))%nat as Hle
      by (apply subseteq_size, subseteq_difference_l; reflexivity).
    lia.
Qed.

(** X3.  At the end of the comparison the three variables of the matcher
    agree: the list of paths holds two entries for every counted
    duplicate, and the counter is the number of hits written to the log.
    The returned list, which holds every path once, is therefore at most
    twice as long as the count that the log line reports. *)
Theorem counter_log_and_paths_agree (albums photos : name_to_files) :
  length (duplicates (compare_groupings albums photos))
  = 2 * count_media (compare_groupings albums photos)
  ∧ count_media (compare_groupings albums photos)
    = length (List.filter is_hit (log (compare_groupings albums photos)))
  ∧ (length (duplicate_paths albums photos)
     ≤ 2 * count_media (compare_groupings albums photos))%nat.
Proof.
  assert (Hb : balanced (compare_groupings albums photos)).
  { unfold compare_groupings. apply balanced_fold.
    - intros s item. apply balanced_compare_title.
    - by split. }
  destruct Hb as [Hd Hc]. repeat split; [done | done |].
  unfold duplicate_paths. rewrite <- Hd. apply length_list_of_set.
Qed.

(** ** The matcher: the rows that compare with a single record *)

Lemma scan_albums_counts gp0 album_files st :
  count_media (scan_albums gp0 album_files st)
  = count_media st + length (List.filter (same_time gp0) album_files)
  ∧ duplicates (scan_albums gp0 album_files st)
    = duplicates st
      ++ concat (replicate (length (List.filter (same_time gp0) album_files))
                   (paths_of gp0)).
Proof.
  unfold scan_albums. revert st.
  induction album_files as [|alb l IH]; intros st;
    cbn [fold_left List.filter].
  - cbn. by rewrite app_nil_r, Nat.add_0_r.
  - destruct (IH (if same_time gp0 alb then mark alb gp0 st else st))
      as [Hc Hd].
    rewrite Hc, Hd. destruct (same_time gp0 alb); [|done].
    cbn [mark count_media duplicates length replicate concat].
    split; [lia|]. by rewrite <- app_assoc.
Qed.

Lemma scan_photos_counts alb0 photos_files st :
  count_media (scan_photos alb0 photos_files st)
  = count_media st + length (List.filter (same_time alb0) photos_files)
  ∧ duplicates (scan_photos alb0 photos_files st)
    = duplicates st
      ++ flat_map paths_of (List.filter (same_time alb0) photos_files).
Proof.
  unfold scan_photos. revert st.
  induction photos_files as [|gp l IH]; intros st;
    cbn [fold_left List.filter].
  - cbn. by rewrite app_nil_r, Nat.add_0_r.
  - destruct (IH (if same_time alb0 gp then mark alb0 gp st else st))
      as [Hc Hd].
    rewrite Hc, Hd. destruct (same_time alb0 gp); [|done].
    cbn [mark count_media duplicates length flat_map].
    split; [lia|]. by rewrite <- app_assoc.
Qed.

(** X4.  One record of the flat export against several album records:
    the scan of the album list does not stop at a hit, so the record is
    counted, and its two paths are appended, once for every album record
    with an equal timestamp. *)
Theorem one_to_many_counts_every_equal_album_record
  (albums : name_to_files) (title : option string) (gp0 : media_obj)
  (album_files : list media_obj) (st : matcher_state) :
  dict_get albums title = Some album_files →
  1 < length album_files →
  count_media (compare_title albums st (title, [gp0]))
  = count_media st + length (List.filter (same_time gp0) album_files)
  ∧ duplicates (compare_title albums st (title, [gp0]))
    = duplicates st
      ++ concat (replicate (length (List.filter (same_time gp0) album_files))
                   (paths_of gp0)).
Proof.
  intros Hget Hlen. rewrite (compare_title_one_many _ _ _ _ _ Hget Hlen).
  apply (scan_albums_counts gp0 album_files (logging (Group_listing title) st)).
Qed.

Lemma one_to_many_counts_every_equal_album_record_witness :
  let albums :=
    [(Some "a", [obj_at "albums" "a.jpg" 200; obj_at "albums/x" "a.jpg" 200])]
  in
  count_media
    (compare_title albums initial_state
       (Some "a", [obj_at "photos" "a.jpg" 200])) = 2
  ∧ duplicates
      (compare_title albums initial_state
         (Some "a", [obj_at "photos" "a.jpg" 200]))
    = ["photos/a.jpg"; "photos/a.jpg.json";
       "photos/a.jpg"; "photos/a.jpg.json"].
Proof.
  apply (one_to_many_counts_every_equal_album_record
           [(Some "a", [obj_at "albums" "a.jpg" 200;
                        obj_at "albums/x" "a.jpg" 200])]
           (Some "a") (obj_at "photos" "a.jpg" 200)
           [obj_at "albums" "a.jpg" 200; obj_at "albums/x" "a.jpg" 200]
           initial_state).
  - reflexivity.
  - simpl. lia.
Defined.

(** X5.  Several records of the flat export against one album record:
    exactly the records whose timestamp equals that of the album record
    are counted, each once, and their paths are appended in the order of
    the list. *)
Theorem many_to_one_marks_the_equal_records
  (albums : name_to_files) (title : option string) (alb0 : media_obj)
  (photos_files : list media_obj) (st : matcher_state) :
  dict_get albums title = Some [alb0] →
  1 < length photos_files →
  count_media (compare_title albums st (title, photos_files))
  = count_media st + length (List.filter (same_time alb0) photos_files)
  ∧ duplicates (compare_title albums st (title, photos_files))
    = duplicates st
      ++ flat_map paths_of (List.filter (same_time alb0) photos_files).
Proof.
  intros Hget Hlen. rewrite (compare_title_many_one _ _ _ _ _ Hget Hlen).
  apply (scan_photos_counts alb0 photos_files (logging (Group_listing title) st)).
Qed.

Lemma many_to_one_marks_the_equal_records_witness :
  let albums := [(Some "a", [obj_at "albums" "a.jpg" 100])] in
  let photos_files :=
    [obj_at "photos" "a.jpg" 100; obj_at "photos/x" "a.jpg" 200] in
  count_media (compare_title albums initial_state (Some "a", photos_files)) = 1
  ∧ duplicates (compare_title albums initial_state (Some "a", photos_files))
    = ["photos/a.jpg"; "photos/a.jpg.json"].
Proof.
  apply (many_to_one_marks_the_equal_records
           [(Some "a", [obj_at "albums" "a.jpg" 100])] (Some "a")
           (obj_at "albums" "a.jpg" 100)
           [obj_at "photos" "a.jpg" 100; obj_at "photos/x" "a.jpg" 200]
           initial_state).
  - reflexivity.
  - simpl. lia.
Defined.

(** X6.  When no title of the flat export is a title of the album
    grouping, nothing is marked: no path is returned, the counter stays
    at zero and nothing is logged.  An empty album tree is the plainest
    case. *)
Theorem no_shared_title_no_duplicate (albums photos : name_to_files) :
  (∀ title l, (title, l) ∈ photos → dict_get albums title = None) →
  compare_groupings albums photos = initial_state
  ∧ duplicate_paths albums photos = [].
Proof.
  intros Hnone.
  assert (Hst : compare_groupings albums photos = initial_state).
  { unfold compare_groupings. generalize initial_state.
    induction photos as [|[title l] photos IH]; intros st;
      cbn [fold_left]; [done|].
    rewrite compare_title_absent by (eapply Hnone; constructor).
    apply IH. intros t l' Hin. eapply Hnone. by constructor. }
  split; [done|]. unfold duplicate_paths. by rewrite Hst.
Qed.

Lemma no_shared_title_no_duplicate_witness :
  compare_groupings [] [(Some "a", [obj_at "photos" "a.jpg" 100])]
  = initial_state
  ∧ duplicate_paths [] [(Some "a", [obj_at "photos" "a.jpg" 100])] = [].
Proof.
  apply (no_shared_title_no_duplicate []
           [(Some "a", [obj_at "photos" "a.jpg" 100])]).
  intros title l _. reflexivity.
Defined.


(** ** The script as a whole *)

(** X7.  The script removes what the matcher returned and nothing else.
    When the run returns, [find_duplicates] returned a list; the storage
    is left with what it had minus the paths of that list whose removal
    is not refused; so a path that was there before the run and is gone
    after it belongs to the returned list, and it is the [file_path] or
    the [json_path] of a record of the flat export that was marked under
    a title of both groupings, for a media file met by the walk.  The
    run as a whole raises exactly when [find_duplicates] does; the
    removal never ends it. *)
Theorem run_only_removes_matched_records (fs : filesystem)
  (albums_directory photos_directory : string) (d : disk) :
  (∀ d' lg,
     run fs albums_directory photos_directory d = Ok (d', lg) →
     ∃ out albums photos,
       find_duplicates fs albums_directory photos_directory = Ok out
       ∧ group_files_by_name_and_metadata fs albums_directory = Ok albums
       ∧ group_files_by_name_and_metadata fs photos_directory = Ok photos
       ∧ faults d' = faults d
       ∧ (∀ q, q ∈ present d'
               ↔ q ∈ present d ∧ (q ∉ out ∨ is_Some (faults d !! q)))
       ∧ (∀ q, q ∈ present d → q ∉ present d' →
               q ∈ out
               ∧ ∃ title photos_files album_files gp,
                   (title, photos_files) ∈ photos
                   ∧ dict_get albums title = Some album_files
                   ∧ marked album_files photos_files gp
                   ∧ walked fs photos_directory gp
                   ∧ (q = file_path gp ∨ q = json_path gp)))
  ∧ (∀ e, run fs albums_directory photos_directory d = Raise e
          ↔ find_duplicates fs albums_directory photos_directory = Raise e).
Proof.
  unfold run.
  destruct (find_duplicates fs albums_directory photos_directory)
    as [out|e0] eqn:Hfind; cbn [bind].
  - unfold remove_duplicates.
    destruct (remove_run out d []) as (d1 & ext & Hrun & Hf & Hp & _).
    rewrite Hrun. split; [|by split].
    intros d' lg [= <- <-].
    destruct (find_duplicates_marked _ _ _ _ Hfind)
      as (albums & photos & Ha & Hph & Hout & Hwalk).
    exists out, albums, photos.
    split; [done|]. split; [done|]. split; [done|]. split; [done|].
    split; [done|].
    intros q Hq Hgone.
    assert (Hin : q ∈ out).
    { destruct (decide (q ∈ out)) as [Hin|Hnot]; [done|].
      exfalso. apply Hgone, Hp. split; [done | by left]. }
    split; [done|].
    apply Hout in Hin
      as (title & photos_files & album_files & gp & Hitem & Hget & Hm & Hx).
    exists title, photos_files, album_files, gp.
    split; [done|]. split; [done|]. split; [done|]. split; [|done].
    apply (Hwalk title photos_files); [done | apply Hm].
  - split; [done|]. intros e. split; by intros [= ->].
Qed.

Lemma run_only_removes_matched_records_witness :
  ∃ out albums photos,
    find_duplicates single_fs "albums" "photos" = Ok out
    ∧ group_files_by_name_and_metadata single_fs "albums" = Ok albums
    ∧ group_files_by_name_and_metadata single_fs "photos" = Ok photos
    ∧ faults {| present := {["albums/a.jpg"]}; faults := ∅ |}
      = faults {| present := {["albums/a.jpg"; "photos/a.jpg"]};
                  faults := ∅ |}
    ∧ (∀ q, q ∈ present {| present := {["albums/a.jpg"]}; faults := ∅ |}
            ↔ q ∈ present {| present := {["albums/a.jpg"; "photos/a.jpg"]};
                             faults := ∅ |}
              ∧ (q ∉ out
                 ∨ is_Some (faults {| present := {["albums/a.jpg";
                                                   "photos/a.jpg"]};
                                      faults := ∅ |} !! q)))
    ∧ (∀ q, q ∈ present {| present := {["albums/a.jpg"; "photos/a.jpg"]};
                           faults := ∅ |} →
            q ∉ present {| present := {["albums/a.jpg"]}; faults := ∅ |} →
            q ∈ out
            ∧ ∃ title photos_files album_files gp,
                (title, photos_files) ∈ photos
                ∧ dict_get albums title = Some album_files
                ∧ marked album_files photos_files gp
                ∧ walked single_fs "photos" gp
                ∧ (q = file_path gp ∨ q = json_path gp)).
Proof.
  apply (proj1 (run_only_removes_matched_records single_fs "albums" "photos"
                  {| present := {["albums/a.jpg"; "photos/a.jpg"]};
                     faults := ∅ |})
           {| present := {["albums/a.jpg"]}; faults := ∅ |}
           [Removing_duplicate "photos/a.jpg";
            Removing_duplicate EmptyString;
            Failed_to_remove EmptyString FileNotFoundError]).
  vm_compute. reflexivity.
Defined.

(** ** The grouping walk: timestamps and titles of a sidecar *)

(** X8.  The timestamp read from a sidecar that is an object: [None] when
    it has no [photoTakenTime] entry, the [timestamp] entry of that
    entry when both are there, [KeyError] when [photoTakenTime] is an
    object without [timestamp] and [TypeError] when it is not an object.
    Such an error is not caught: grouping the file raises it. *)
Theorem photo_taken_time_of_a_sidecar :
  (∀ entries,
     get_photo_taken_time (PyDict entries)
     = match Py.lookup "photoTakenTime" entries with
       | None => Ok PyNone
       | Some (PyDict inner) =>
           match Py.lookup "timestamp" inner with
           | Some t => Ok t
           | None => Raise (KeyError "timestamp")
           end
       | Some _ => Raise TypeError
       end)
  ∧ (∀ fs root acc file found e,
       Str.endswith file json_ext = false →
       load_metadata fs (Path.join root file) = Ok (Some found) →
       get_photo_taken_time (data found) = Raise e →
       group_file fs root acc file = Raise e).
Proof.
  split.
  - intros entries. unfold get_photo_taken_time.
    destruct entries as [|entry rest]; [done|].
    cbn [Py.truthy Py.contains Py.getitem bind].
    destruct (Py.lookup "photoTakenTime" (entry :: rest)) as [taken|]; [|done].
    cbn [bind]. by destruct taken.
  - intros fs root acc file found e Hmedia Hload Hraise.
    unfold group_file. by rewrite Hmedia, Hload; cbn; rewrite Hraise.
Qed.

Lemma photo_taken_time_of_a_sidecar_witness :
  group_file
    (tree_fs [("albums", ["a.jpg"; "a.jpg.json"])]
       [("albums/a.jpg.json", Ok (PyDict [("photoTakenTime", PyDict [])]))])
    "albums" [] "a.jpg"
  = Raise (KeyError "timestamp").
Proof.
  apply (proj2 photo_taken_time_of_a_sidecar
           (tree_fs [("albums", ["a.jpg"; "a.jpg.json"])]
              [("albums/a.jpg.json",
                Ok (PyDict [("photoTakenTime", PyDict [])]))])
           "albums" [] "a.jpg"
           {| path := "albums/a.jpg.json";
              data := PyDict [("photoTakenTime", PyDict [])] |}
           (KeyError "timestamp")).
  - reflexivity.
  - vm_compute. reflexivity.
  - reflexivity.
Defined.

Lemma lower_idemp s : Str.lower (Str.lower s) = Str.lower s.
Proof.
  unfold Str.lower at 1. rewrite chars_lower, map_map. unfold Str.lower.
  f_equal. apply map_ext. intros c. apply lower_char_idemp.
Qed.

Lemma get_title_lower metadata t :
  get_title metadata = Ok (Some t) → Str.lower t = t.
Proof.
  unfold get_title. destruct (Py.truthy metadata); [|done].
  destruct (Py.contains "title" metadata) as [[]|e]; cbn; [|done|done].
  destruct (Py.getitem metadata "title") as [title|e]; cbn; [|done].
  intros [= <-]. apply lower_idemp.
Qed.

(** X9.  Every title of a grouping that is a string is in lower case,
    whether it comes from the [title] entry of a sidecar or from the
    name of the file. *)
Theorem titles_are_lower_case (fs : filesystem) (directory : string)
  (d : name_to_files) (t : string) :
  group_files_by_name_and_metadata fs directory = Ok d →
  Some t ∈ titles d →
  Str.lower t = t.
Proof.
  intros Hrun. revert t.
  unfold group_files_by_name_and_metadata in Hrun.
  eapply (for_each_invariant
            (fun d => ∀ t, Some t ∈ titles d → Str.lower t = t));
    [ | | exact Hrun].
  - intros t Hin. by apply elem_of_nil in Hin.
  - intros s [root files] s' _ Hs Hinner. cbn in Hinner.
    eapply (for_each_invariant
              (fun d => ∀ t, Some t ∈ titles d → Str.lower t = t));
      [exact Hs | | exact Hinner].
    intros u file u' _ Hu Hstep t. unfold group_file in Hstep.
    destruct (Str.endswith file json_ext); [injection Hstep as <-; apply Hu|].
    destruct (load_metadata fs (Path.join root file)) as [[found|]|e];
      cbn in Hstep; [| |done].
    + destruct (get_photo_taken_time (data found)) as [taken|e];
        cbn in Hstep; [|done].
      destruct (get_title (data found)) as [title|e] eqn:Ht;
        cbn in Hstep; [|done].
      injection Hstep as <-. rewrite titles_dict_append.
      destruct (bool_decide (title ∈ titles u)); [apply Hu|].
      intros [Hin| <-%list_elem_of_singleton]%elem_of_app; [by apply Hu|].
      by apply (get_title_lower (data found)).
    + injection Hstep as <-. rewrite titles_dict_append.
      destruct (bool_decide (_ ∈ titles u)); [apply Hu|].
      intros [Hin| [= ->]%list_elem_of_singleton]%elem_of_app; [by apply Hu|].
      apply lower_idemp.
Qed.

Lemma titles_are_lower_case_witness : Str.lower "a" = "a".
Proof.
  apply (titles_are_lower_case bare_fs "photos"
           [(Some "a", [bare_obj "photos" "a.jpg"; bare_obj "photos" "a.png"])]
           "a").
  - vm_compute. reflexivity.
  - constructor.
Defined.

(** ** Sidecar lookup: the counter of a media file name *)

Lemma chars_app a b : Str.chars (a +:+ b) = Str.chars a ++ Str.chars b.
Proof.
  unfold Str.chars. induction a as [|c a IH]; [done|].
  change (String c a +:+ b) with (String c (a +:+ b)).
  cbn [list_ascii_of_string app]. by rewrite IH.
Qed.

Lemma of_chars_chars s : Str.of_chars (Str.chars s) = s.
Proof. apply string_of_list_ascii_of_string. Qed.

Lemma chars_inj a b : Str.chars a = Str.chars b → a = b.
Proof. intros H. by rewrite <- (of_chars_chars a), H, of_chars_chars. Qed.

Lemma forallb_rev {A} (f : A → bool) l : forallb f (rev l) = forallb f l.
Proof.
  induction l as [|x l IH]; cbn; [done|].
  rewrite forallb_app, IH. cbn. by rewrite andb_true_r, andb_comm.
Qed.

Lemma take_drop_while f l : Str.take_while f l ++ Str.drop_while f l = l.
Proof.
  induction l as [|d l IH]; cbn; [done|]. destruct (f d); cbn; [|done].
  by rewrite IH.
Qed.

Lemma take_while_all f l : forallb f (Str.take_while f l) = true.
Proof.
  induction l as [|d l IH]; cbn; [done|]. destruct (f d) eqn:E; cbn; [|done].
  by rewrite E, IH.
Qed.

Lemma take_drop_while_stop f ds c rest :
  forallb f ds = true → f c = false →
  Str.take_while f (ds ++ c :: rest) = ds
  ∧ Str.drop_while f (ds ++ c :: rest) = c :: rest.
Proof.
  intros Hds Hc. induction ds as [|d ds IH]; cbn.
  - by rewrite Hc.
  - cbn in Hds. apply andb_true_iff in Hds as [Hd Hds]. rewrite Hd.
    destruct (IH Hds) as [-> ->]. done.
Qed.

Lemma counter_groups_build g1 ds :
  ds ≠ [] →
  forallb Str.is_digit ds = true →
  forallb (Re.atom_match Re.Dot) g1 = true →
  Re.counter_groups (g1 ++ "("%char :: ds ++ [")"%char])
  = Some (Str.of_chars g1, Str.of_chars ds).
Proof.
  intros Hne Hds Hg1. unfold Re.counter_groups.
  rewrite rev_app_distr. cbn [rev]. rewrite rev_app_distr. cbn [rev app].
  rewrite <- app_assoc. cbn [app].
  destruct (take_drop_while_stop Str.is_digit (rev ds) "("%char (rev g1))
    as [-> ->]; [by rewrite forallb_rev | done |].
  destruct (rev ds) as [|d r] eqn:E.
  - apply (f_equal (@rev _)) in E. rewrite rev_involutive in E. done.
  - rewrite <- E, forallb_rev, Hg1, !rev_involutive. done.
Qed.

Lemma counter_groups_sound s g1 g2 :
  Re.counter_groups s = Some (g1, g2) →
  s = Str.chars g1 ++ "("%char :: Str.chars g2 ++ [")"%char]
  ∧ Str.chars g2 ≠ []
  ∧ forallb Str.is_digit (Str.chars g2) = true
  ∧ forallb (Re.atom_match Re.Dot) (Str.chars g1) = true.
Proof.
  unfold Re.counter_groups. destruct (rev s) as [|d r] eqn:E; [done|].
  destruct (Ascii.eqb d ")") eqn:Ed; [|done]. apply Ascii.eqb_eq in Ed as ->.
  pose proof (take_drop_while Str.is_digit r) as Hsplit.
  pose proof (take_while_all Str.is_digit r) as Hall.
  destruct (Str.take_while Str.is_digit r) as [|d0 ds]; [done|].
  destruct (Str.drop_while Str.is_digit r) as [|o rest]; [done|].
  destruct (Ascii.eqb o "(") eqn:Eo; [|done]. apply Ascii.eqb_eq in Eo as ->.
  destruct (forallb (Re.atom_match Re.Dot) rest) eqn:Edot; [|done].
  cbn [andb]. intros [= <- <-]. rewrite !chars_of_chars.
  repeat split.
  - apply (f_equal (@rev _)) in E. rewrite rev_involutive in E.
    rewrite E, <- Hsplit. cbn [rev]. rewrite rev_app_distr. cbn [rev].
    by rewrite <- !app_assoc.
  - intros H. cbn [rev] in H. apply app_eq_nil in H as [_ H].
    discriminate H.
  - change (rev ds ++ [d0]) with (rev (d0 :: ds)). by rewrite forallb_rev.
  - by rewrite forallb_rev.
Qed.

(** X10.  The counter of a media file name.  A name that is some text
    without newline followed by a parenthesised, non-empty run of digits
    is split into that text and those digits; conversely, whenever a
    counter is found, the name is the returned text, the digits in
    parentheses and nothing else but, possibly, one final newline; and
    when no counter is found, the name is kept whole. *)
Theorem counter_is_split_off_and_put_back :
  (∀ base digits,
     digits ≠ EmptyString →
     forallb Str.is_digit (Str.chars digits) = true →
     forallb (Re.atom_match Re.Dot) (Str.chars base) = true →
     split_counter (base +:+ "(" +:+ digits +:+ ")") = (base, Some digits))
  ∧ (∀ s base digits,
       split_counter s = (base, Some digits) →
       (s = base +:+ "(" +:+ digits +:+ ")"
        ∨ s = base +:+ "(" +:+ digits +:+ ")" +:+ String Str.nl EmptyString)
       ∧ digits ≠ EmptyString
       ∧ forallb Str.is_digit (Str.chars digits) = true)
  ∧ (∀ s base, split_counter s = (base, None) → base = s).
Proof.
  split; [|split].
  - intros base digits Hne Hds Hbase. unfold split_counter, Re.counter_match.
    rewrite !chars_app. cbn [Str.chars list_ascii_of_string app].
    fold (Str.chars digits).
    rewrite counter_groups_build; try done.
    + by rewrite !of_chars_chars.
    + intros H. apply Hne, chars_inj. by rewrite H.
  - intros s base digits. unfold split_counter, Re.counter_match.
    destruct (Re.counter_groups (Str.chars s)) as [[g1 g2]|] eqn:E.
    + intros [= <- <-].
      apply counter_groups_sound in E as (Hs & Hne & Hds & _).
      split; [|split; [|done]].
      * left. apply chars_inj. rewrite Hs, !chars_app. done.
      * intros ->. done.
    + destruct (rev (Str.chars s)) as [|d r] eqn:Er; [done|].
      destruct (Ascii.eqb d Str.nl) eqn:Ed; [|done].
      apply Ascii.eqb_eq in Ed as ->.
      destruct (Re.counter_groups (rev r)) as [[g1 g2]|] eqn:E2; [|done].
      intros [= <- <-].
      apply counter_groups_sound in E2 as (Hs & Hne & Hds & _).
      split; [|split; [|done]].
      * right. apply chars_inj.
        apply (f_equal (@rev _)) in Er. rewrite rev_involutive in Er.
        rewrite Er. cbn [rev]. rewrite Hs, !chars_app. cbn.
        rewrite <- app_assoc. cbn. by rewrite <- app_assoc.
      * intros ->. done.
  - intros s base. unfold split_counter.
    destruct (Re.counter_match s) as [[g1 g2]|]; [done|]. by intros [= <-].
Qed.

Lemma counter_is_split_off_and_put_back_witness :
  split_counter "IMG_0001(507)" = ("IMG_0001", Some "507")
  ∧ split_counter "IMG_0001" = ("IMG_0001", None).
Proof.
  split.
  - apply (proj1 counter_is_split_off_and_put_back "IMG_0001" "507");
      [discriminate | reflexivity | reflexivity].
  - reflexivity.
Defined.

(** ** Sidecar lookup: what the patterns accept *)

Lemma atom_match_lit_self c : Re.atom_match (Re.Lit c) c = true.
Proof. cbn. apply Ascii.eqb_refl. Qed.

Lemma eat_literals cs s : Re.eat (map Re.Lit cs) (cs ++ s) = Some s.
Proof.
  induction cs as [|c cs IH]; cbn [map app Re.eat]; [by destruct s|].
  by rewrite atom_match_lit_self.
Qed.

Lemma fullmatch_build pre a suf m :
  m ≠ [] →
  forallb (Re.atom_match a) m = true →
  Re.fullmatch {| Re.prefix := map Re.Lit pre; Re.mid := a;
                  Re.suffix := map Re.Lit suf |}
    (pre ++ m ++ suf) = true.
Proof.
  intros Hne Hm. unfold Re.fullmatch. cbn [Re.prefix Re.mid Re.suffix].
  rewrite eat_literals, <- map_rev, rev_app_distr, eat_literals.
  destruct (rev m) as [|d r] eqn:E.
  - apply (f_equal (@rev _)) in E. rewrite rev_involutive in E. done.
  - by rewrite <- E, forallb_rev.
Qed.

(** X11.  The second and the third form accept the names they are meant
    for: the media file's name (with its extension), a dot, some text
    without parentheses and [.json]; and the name without counter, a
    dot, some text without newline, the counter in parentheses and
    [.json]. *)
Theorem suffixed_sidecar_names_are_accepted :
  (∀ base_name text,
     text ≠ EmptyString →
     forallb (Re.atom_match Re.NotParen) (Str.chars text) = true →
     Re.re_match (case2 base_name)
       (base_name +:+ "." +:+ text +:+ json_ext) = true)
  ∧ (∀ base counter text,
       text ≠ EmptyString →
       forallb (Re.atom_match Re.Dot) (Str.chars text) = true →
       Re.re_match (case3 base counter)
         (base +:+ "." +:+ text +:+ "(" +:+ counter +:+ ")" +:+ json_ext)
       = true).
Proof.
  split.
  - intros base_name text Hne Htext. unfold Re.re_match.
    apply orb_true_iff. left.
    rewrite !chars_app. unfold case2, Re.escape.
    change (map Re.Lit (Str.chars base_name) ++ [Re.Lit "."%char])
      with (map Re.Lit (Str.chars base_name) ++ map Re.Lit ["."%char]).
    rewrite <- map_app.
    change (Str.chars ".") with ["."%char].
    rewrite (app_assoc (Str.chars base_name)).
    apply fullmatch_build; [|done].
    intros H. apply Hne, chars_inj. by rewrite H.
  - intros base counter text Hne Htext. unfold Re.re_match.
    apply orb_true_iff. left.
    rewrite !chars_app. unfold case3, Re.escape.
    change (map Re.Lit (Str.chars base) ++ [Re.Lit "."%char])
      with (map Re.Lit (Str.chars base) ++ map Re.Lit ["."%char]).
    rewrite <- map_app.
    change (Re.Lit "("%char
              :: map Re.Lit (Str.chars counter)
                 ++ Re.Lit ")"%char :: map Re.Lit (Str.chars json_ext))
      with (map Re.Lit ["("%char] ++ map Re.Lit (Str.chars counter)
              ++ map Re.Lit [")"%char] ++ map Re.Lit (Str.chars json_ext)).
    rewrite <- !map_app.
    change (Str.chars ".") with ["."%char].
    change (Str.chars "(") with ["("%char].
    change (Str.chars ")") with [")"%char].
    rewrite (app_assoc (Str.chars base)).
    apply fullmatch_build; [|done].
    intros H. apply Hne, chars_inj. by rewrite H.
Qed.

Lemma suffixed_sidecar_names_are_accepted_witness :
  Re.re_match (case2 "photo.jpg") "photo.jpg.supplemental-metadata.json" = true
  ∧ Re.re_match (case3 "photo" "3") "photo.jpg.supplemental-metadata(3).json"
    = true.
Proof.
  split.
  - apply (proj1 suffixed_sidecar_names_are_accepted "photo.jpg"
             "supplemental-metadata"); [discriminate | reflexivity].
  - apply (proj2 suffixed_sidecar_names_are_accepted "photo" "3"
             "jpg.supplemental-metadata"); [discriminate | reflexivity].
Defined.

Lemma eat_literal_occurs before c after s rest :
  Re.eat (before ++ Re.Lit c :: after) s = Some rest →
  ∃ d, d ∈ s ∧ Str.lower_char d = Str.lower_char c.
Proof.
  revert s. induction before as [|a before IH]; intros s; cbn [app Re.eat].
  - destruct s as [|d s]; [done|].
    destruct (Re.atom_match (Re.Lit c) d) eqn:E; [|done]. intros _.
    exists d. split; [constructor|]. cbn in E. apply Ascii.eqb_eq in E. done.
  - destruct s as [|d s]; [done|].
    destruct (Re.atom_match a d); [|done].
    intros (d' & Hin & Hd)%IH. exists d'. split; [by constructor | done].
Qed.

Lemma lower_char_backslash d :
  Str.lower_char d = Str.lower_char Str.backslash → d = Str.backslash.
Proof.
  destruct d as [[] [] [] [] [] [] [] []]; vm_compute; congruence.
Qed.

Lemma fullmatch_case4_backslash base counter ext s :
  Re.fullmatch (case4 base counter ext) s = true → Str.backslash ∈ s.
Proof.
  unfold Re.fullmatch, case4. cbn [Re.prefix].
  match goal with
  | |- context [Re.eat (?b ++ ?o :: ?c ++ ?p :: Re.Lit Str.backslash :: ?r) s] =>
      replace (b ++ o :: c ++ p :: Re.Lit Str.backslash :: r)
        with ((b ++ o :: c ++ [p]) ++ Re.Lit Str.backslash :: r)
        by (by rewrite <- !app_assoc; cbn; rewrite <- app_assoc);
      destruct (Re.eat ((b ++ o :: c ++ [p]) ++ Re.Lit Str.backslash :: r) s)
        as [rest|] eqn:E; [|done]
  end.
  intros _. apply eat_literal_occurs in E as (d & Hin & Hd).
  by apply lower_char_backslash in Hd as ->.
Qed.

(** X12.  The fourth form cannot accept a name without a backslash: in
    its regular expression the backslash written before the extension
    joins the one that escapes the extension's dot, and the pair stands
    for a backslash character that the name must contain.  For such a
    name the fourth test is dead and an entry is accepted by the first
    three tests only. *)
Theorem fourth_form_needs_a_backslash
  (base_name base counter ext file : string) :
  Str.backslash ∉ Str.chars file →
  Re.re_match (case4 base counter ext) file = false
  ∧ entry_matches base_name base ext (Some counter) file
    = (String.eqb file (base_name +:+ json_ext)
       || Re.re_match (case2 base_name) file
       || Re.re_match (case3 base counter) file).
Proof.
  intros Hno.
  assert (H4 : Re.re_match (case4 base counter ext) file = false).
  { apply not_true_is_false. unfold Re.re_match.
    intros [H|H]%orb_true_iff.
    - by apply Hno, (fullmatch_case4_backslash base counter ext).
    - destruct (rev (Str.chars file)) as [|d r] eqn:E; [done|].
      apply andb_true_iff in H as [_ H].
      apply fullmatch_case4_backslash in H.
      apply Hno. apply (f_equal (@rev _)) in E. rewrite rev_involutive in E.
      rewrite E. cbn [rev]. apply elem_of_app. by left. }
  split; [done|]. unfold entry_matches. rewrite H4.
  destruct (String.eqb file (base_name +:+ json_ext)); [done|].
  destruct (Re.re_match (case2 base_name) file); [done|].
  by destruct (Re.re_match (case3 base counter) file).
Qed.

Lemma fourth_form_needs_a_backslash_witness :
  Re.re_match (case4 "photo" "3" ".jpg") "photo(3).jpg.meta(1).json" = false
  ∧ entry_matches "photo(3).jpg" "photo" ".jpg" (Some "3")
      "photo(3).jpg.meta(1).json"
    = (String.eqb "photo(3).jpg.meta(1).json" ("photo(3).jpg" +:+ json_ext)
       || Re.re_match (case2 "photo(3).jpg") "photo(3).jpg.meta(1).json"
       || Re.re_match (case3 "photo" "3") "photo(3).jpg.meta(1).json").
Proof.
  apply (fourth_form_needs_a_backslash "photo(3).jpg" "photo" "3" ".jpg"
           "photo(3).jpg.meta(1).json").
  intros H. apply list_elem_of_In in H. vm_compute in H.
  repeat (destruct H as [H|H]; [discriminate H|]). exact H.
Defined.

(** ** Sidecar lookup: letter case *)



























(** ** Sidecar lookup: the directory that is read *)

Lemma rsplit_after_none c f : c ∉ f → Path.rsplit_after c f = ([], f).
Proof.
  induction f as [|d f IH]; cbn; [done|].
  intros [Hd Hf]%not_elem_of_cons. rewrite (IH Hf).
  destruct (Ascii.eqb d c) eqn:E; [|done].
  apply Ascii.eqb_eq in E. congruence.
Qed.

Lemma rsplit_after_last c a f :
  c ∉ f → Path.rsplit_after c (a ++ c :: f) = (a ++ [c], f).
Proof.
  intros Hf. induction a as [|d a IH]; cbn [app Path.rsplit_after].
  - by rewrite (rsplit_after_none c f Hf), Ascii.eqb_refl.
  - rewrite IH. by destruct a.
Qed.

Lemma endswith_sep_false root :
  Str.endswith root (String Path.sep EmptyString) = false →
  root = EmptyString
  ∨ ∃ last r, rev (Str.chars root) = last :: r ∧ last ≠ Path.sep.
Proof.
  unfold Str.endswith. cbn [Str.chars list_ascii_of_string rev app].
  destruct (rev (Str.chars root)) as [|last r] eqn:E.
  - intros _. left. apply chars_inj.
    apply (f_equal (@rev _)) in E. by rewrite rev_involutive in E.
  - cbn [Str.has_prefix]. rewrite andb_true_r.
    intros Hne. right. exists last, r. split; [done|].
    intros ->. by rewrite Ascii.eqb_refl in Hne.
Qed.

Lemma join_plain root file :
  file ≠ EmptyString →
  Path.sep ∉ Str.chars file →
  Str.endswith root (String Path.sep EmptyString) = false →
  Path.join root file
  = match root with
    | EmptyString => file
    | _ => root +:+ String Path.sep file
    end.
Proof.
  intros Hne Hsep Hroot. unfold Path.join.
  destruct (Str.chars file) as [|c cs] eqn:E.
  - exfalso. apply Hne, chars_inj. by rewrite E.
  - rewrite Hroot. destruct (Ascii.eqb c Path.sep) eqn:Ec; [|done].
    apply Ascii.eqb_eq in Ec as ->. exfalso. apply Hsep. constructor.
Qed.

(** X13.  For a file name without separator and a directory path that
    does not end in one, splitting the joined path gives the two back.
    So the sidecar of a file met by the walk is looked for among the
    entries of the directory in which the walk met the file, with the
    file's own name as the base name. *)
Theorem the_walked_directory_is_searched (fs : filesystem)
  (root file : string) :
  file ≠ EmptyString →
  Path.sep ∉ Str.chars file →
  Str.endswith root (String Path.sep EmptyString) = false →
  Path.basename (Path.join root file) = file
  ∧ Path.dirname (Path.join root file) = root
  ∧ find_metadata_file fs (Path.join root file)
    = find_metadata_loop root file
        (fst (split_counter (fst (Path.splitext file))))
        (snd (Path.splitext file))
        (snd (split_counter (fst (Path.splitext file))))
        (os_listdir fs root).
Proof.
  intros Hne Hsep Hroot.
  assert (Hsplit : Path.basename (Path.join root file) = file
                   ∧ Path.dirname (Path.join root file) = root).
  { rewrite (join_plain root file Hne Hsep Hroot).
    unfold Path.basename, Path.dirname.
    destruct (endswith_sep_false root Hroot) as [->|(last & r & Hrev & Hlast)].
    - rewrite (rsplit_after_none Path.sep _ Hsep). cbn.
      by rewrite of_chars_chars.
    - assert (root ≠ EmptyString) as Hr by (intros ->; done).
      destruct root as [|c0 root0] eqn:Eroot; [done|]. rewrite <- Eroot in *.
      rewrite chars_app.
      change (Str.chars (String Path.sep file))
        with (Path.sep :: Str.chars file).
      rewrite (rsplit_after_last Path.sep _ _ Hsep). cbn [fst snd].
      split; [apply of_chars_chars|].
      assert (forallb (Ascii.eqb Path.sep) (Str.chars root ++ [Path.sep])
              = false) as ->.
      { rewrite <- forallb_rev, rev_app_distr, Hrev.
        cbn [rev app forallb]. rewrite Ascii.eqb_refl. cbn [andb].
        destruct (Ascii.eqb Path.sep last) eqn:E; [|done].
        apply Ascii.eqb_eq in E. congruence. }
      unfold Path.rstrip_sep. rewrite rev_app_distr, Hrev.
      cbn [rev app Str.drop_while]. rewrite Ascii.eqb_refl.
      cbn [Str.drop_while].
      destruct (Ascii.eqb Path.sep last) eqn:E.
      { apply Ascii.eqb_eq in E. congruence. }
      rewrite <- Hrev, rev_involutive. apply of_chars_chars. }
  destruct Hsplit as [Hbase Hdir]. split; [done|]. split; [done|].
  unfold find_metadata_file. rewrite Hbase, Hdir.
  destruct (Path.splitext file) as [stem ext]. cbn [fst snd].
  by destruct (split_counter stem) as [base0 counter].
Qed.

Lemma the_walked_directory_is_searched_witness :
  Path.basename (Path.join "photos/2019" "IMG_1.jpg") = "IMG_1.jpg"
  ∧ Path.dirname (Path.join "photos/2019" "IMG_1.jpg") = "photos/2019"
  ∧ find_metadata_file bare_fs (Path.join "photos/2019" "IMG_1.jpg")
    = find_metadata_loop "photos/2019" "IMG_1.jpg"
        (fst (split_counter (fst (Path.splitext "IMG_1.jpg"))))
        (snd (Path.splitext "IMG_1.jpg"))
        (snd (split_counter (fst (Path.splitext "IMG_1.jpg"))))
        (os_listdir bare_fs "photos/2019").
Proof.
  apply (the_walked_directory_is_searched bare_fs "photos/2019" "IMG_1.jpg").
  - discriminate.
  - intros H. apply list_elem_of_In in H. vm_compute in H.
    repeat (destruct H as [H|H]; [discriminate H|]). exact H.
  - reflexivity.
Defined.

(** ** [find_file_formats.py]: the extensions that are listed *)

Lemma existsb_eqb_elem_of x (l : list string) :
  existsb (String.eqb x) l = true ↔ x ∈ l.
Proof.
  rewrite existsb_elem_of. split.
  - intros (a & Ha & ->%String.eqb_eq). done.
  - intros Hx. exists x. split; [done | apply String.eqb_refl].
Qed.

Lemma fold_left_nested {A B S} (f : S → B → S) (g : A → list B)
  (l : list A) (s : S) :
  fold_left (fun acc a => fold_left f (g a) acc) l s
  = fold_left f (flat_map g l) s.
Proof.
  revert s. induction l as [|a l IH]; intros s; cbn; [done|].
  by rewrite IH, fold_left_app.
Qed.

Lemma note_extension_step suffix acc file :
  NoDup acc → json_ext ∉ acc →
  NoDup (FindFileFormats.note_extension suffix acc file)
  ∧ (json_ext ∉ FindFileFormats.note_extension suffix acc file)
  ∧ (∀ x, x ∈ FindFileFormats.note_extension suffix acc file
          ↔ x ∈ acc ∨ (x ≠ json_ext ∧ suffix file = x)).
Proof.
  intros Hnd Hjson. unfold FindFileFormats.note_extension.
  destruct (String.eqb (suffix file) json_ext) eqn:Ej; cbn [negb andb].
  - apply String.eqb_eq in Ej. split; [done|]. split; [done|].
    intros x. split; [by left|].
    intros [Hx|[Hne Hx]]; [done | congruence].
  - apply String.eqb_neq in Ej.
    destruct (existsb (String.eqb (suffix file)) acc) eqn:Ein; cbn [negb].
    + apply existsb_eqb_elem_of in Ein. split; [done|]. split; [done|].
      intros x. split; [by left|].
      intros [Hx|[_ Hx]]; [done | by rewrite <- Hx].
    + assert (suffix file ∉ acc) as Hnotin.
      { intros Hin%existsb_eqb_elem_of. congruence. }
      split; [|split].
      * apply NoDup_app. split; [done|]. split; [|apply NoDup_singleton].
        intros x Hx Hx'%list_elem_of_singleton. congruence.
      * intros [Hx|Hx%list_elem_of_singleton]%elem_of_app; [done | congruence].
      * intros x. rewrite elem_of_app, list_elem_of_singleton. split.
        -- intros [Hx|Hx]; [by left | right]. split; congruence.
        -- intros [Hx|[_ Hx]]; [by left | by right].
Qed.

Lemma note_extensions_spec suffix files acc :
  NoDup acc → json_ext ∉ acc →
  NoDup (fold_left (FindFileFormats.note_extension suffix) files acc)
  ∧ (json_ext ∉ fold_left (FindFileFormats.note_extension suffix) files acc)
  ∧ (∀ x, x ∈ fold_left (FindFileFormats.note_extension suffix) files acc
          ↔ x ∈ acc
            ∨ (x ≠ json_ext ∧ ∃ file, file ∈ files ∧ suffix file = x)).
Proof.
  revert acc. induction files as [|file files IH]; intros acc Hnd Hjson;
    cbn [fold_left].
  - split; [done|]. split; [done|]. intros x. split; [by left|].
    intros [Hx|(_ & file & Hin & _)]; [done | by apply elem_of_nil in Hin].
  - destruct (note_extension_step suffix acc file Hnd Hjson)
      as (Hnd1 & Hjson1 & Hmem1).
    destruct (IH _ Hnd1 Hjson1) as (Hnd2 & Hjson2 & Hmem2).
    split; [done|]. split; [done|]. intros x. rewrite Hmem2, Hmem1. split.
    + intros [[Hx|[Hne Hs]]|(Hne & f & Hf & Hs)].
      * by left.
      * right. split; [done|]. exists file. split; [constructor | done].
      * right. split; [done|]. exists f. split; [by constructor | done].
    + intros [Hx|(Hne & f & [->|Hf]%elem_of_cons & Hs)].
      * left. by left.
      * left. by right.
      * right. split; [done|]. by exists f.
Qed.

(** X14.  The list printed by [find_file_formats.py] holds no extension
    twice, never holds [.json], and holds exactly the suffixes, other
    than [.json], of the files met by the walk.  This holds whatever the
    library's [suffix] returns, the empty suffix of a file without
    extension included. *)
Theorem listed_extensions (suffix : string → string) (fs : filesystem)
  (media_folder : string) :
  NoDup (FindFileFormats.merge_metadata suffix fs media_folder)
  ∧ (json_ext ∉ FindFileFormats.merge_metadata suffix fs media_folder)
  ∧ ∀ x, x ∈ FindFileFormats.merge_metadata suffix fs media_folder
         ↔ x ≠ json_ext
           ∧ ∃ root files file,
               (root, files) ∈ os_walk fs media_folder
               ∧ file ∈ files ∧ suffix file = x.
Proof.
  unfold FindFileFormats.merge_metadata.
  rewrite (fold_left_nested (FindFileFormats.note_extension suffix) snd).
  destruct (note_extensions_spec suffix
              (flat_map snd (os_walk fs media_folder)) [])
    as (Hnd & Hjson & Hmem); [constructor | apply not_elem_of_nil |].
  split; [done|]. split; [done|]. intros x. rewrite Hmem. split.
  - intros [Hx|(Hne & file & Hin & Hs)]; [by apply elem_of_nil in Hx|].
    split; [done|].
    apply elem_of_flat_map in Hin as ([root files] & Hentry & Hfile).
    by exists root, files, file.
  - intros (Hne & root & files & file & Hentry & Hfile & Hs).
    right. split; [done|]. exists file. split; [|done].
    apply elem_of_flat_map. by exists (root, files).
Qed.

(** ** [merge_metadata.py]: loading a sidecar *)

(** X15.  The loader of [merge_metadata.py] returns where the loader of
    [remove_duplicates.py] raises: for the sidecar found for a media
    file, an exception of the load gives the empty object and one error
    line; a successful load gives the same value in both scripts; and a
    path that does not exist gives the empty object without any line. *)
Theorem merge_loader_returns_where_the_matcher_raises (fs : filesystem) :
  (∀ media_file found e,
     find_metadata_file fs media_file = Some found →
     load_metadata fs media_file = Raise e →
     MergeMetadata.get_metadata_from_json fs found
     = (PyDict [], [MergeMetadata.Failed_to_load found e]))
  ∧ (∀ media_file loaded,
       load_metadata fs media_file = Ok (Some loaded) →
       MergeMetadata.get_metadata_from_json fs (path loaded)
       = (data loaded, []))
  ∧ (∀ json_path,
       os_path_exists fs json_path = false →
       MergeMetadata.get_metadata_from_json fs json_path = (PyDict [], [])).
Proof.
  unfold load_metadata, MergeMetadata.get_metadata_from_json.
  split; [|split].
  - intros media_file found e ->.
    destruct (negb (String.eqb found EmptyString)); cbn [andb]; [|done].
    destruct (os_path_exists fs found); [|done].
    destruct (json_load fs found) as [loaded|e']; cbn [bind]; [done|].
    by intros [= ->].
  - intros media_file loaded.
    destruct (find_metadata_file fs media_file) as [found|]; [|done].
    destruct (negb (String.eqb found EmptyString)); cbn [andb]; [|done].
    destruct (os_path_exists fs found) eqn:Eexists; [|done].
    destruct (json_load fs found) as [v|e'] eqn:Eload; cbn [bind]; [|done].
    intros [= <-]. cbn [path data]. by rewrite Eexists, Eload.
  - by intros json_path ->.
Qed.

Lemma merge_loader_returns_where_the_matcher_raises_witness :
  MergeMetadata.get_metadata_from_json broken_fs "albums/a.jpg.json"
  = (PyDict [],
     [MergeMetadata.Failed_to_load "albums/a.jpg.json" JSONDecodeError]).
Proof.
  apply (proj1 (merge_loader_returns_where_the_matcher_raises broken_fs)
           "albums/a.jpg" "albums/a.jpg.json" JSONDecodeError).
  - vm_compute. reflexivity.
  - vm_compute. reflexivity.
Defined.

(** ** [merge_metadata.py]: finding a sidecar by its prefix *)

Lemma has_prefix_app p s : Str.has_prefix p (p ++ s) = true.
Proof.
  induction p as [|c p IH]; cbn; [done|]. by rewrite Ascii.eqb_refl, IH.
Qed.

Lemma endswith_app a b : Str.endswith (a +:+ b) b = true.
Proof.
  unfold Str.endswith. rewrite chars_app, rev_app_distr. apply has_prefix_app.
Qed.

Lemma append_assoc a b c : (a +:+ b) +:+ c = a +:+ (b +:+ c).
Proof. apply chars_inj. by rewrite !chars_app, app_assoc. Qed.

Lemma rsplit_after_spec c p :
  p = fst (Path.rsplit_after c p) ++ snd (Path.rsplit_after c p)
  ∧ (c ∉ snd (Path.rsplit_after c p))
  ∧ (fst (Path.rsplit_after c p) = []
     ∨ ∃ h, fst (Path.rsplit_after c p) = h ++ [c]).
Proof.
  induction p as [|d p (IHeq & IHnot & IHhead)]; cbn [Path.rsplit_after].
  - split; [done|]. split; [apply not_elem_of_nil | by left].
  - destruct (Path.rsplit_after c p) as [h t]. cbn [fst snd] in *.
    destruct h as [|h0 h].
    + cbn [app] in IHeq. subst t.
      destruct (Ascii.eqb d c) eqn:E; cbn [fst snd].
      * apply Ascii.eqb_eq in E as ->. split; [done|]. split; [done|].
        right. by exists [].
      * apply Ascii.eqb_neq in E. split; [done|]. split; [|by left].
        by intros [?|?]%elem_of_cons.
    + cbn [fst snd]. split; [by rewrite IHeq|]. split; [done|].
      destruct IHhead as [?|[h' Hh']]; [done|]. right.
      exists (d :: h'). by rewrite Hh'.
Qed.

Lemma rsplit_before_dot_app p :
  fst (Path.rsplit_before_dot p) ++ snd (Path.rsplit_before_dot p) = p.
Proof.
  induction p as [|d p IH]; cbn [Path.rsplit_before_dot]; [done|].
  destruct (Path.rsplit_before_dot p) as [root ext]. cbn [fst snd] in *.
  destruct ext as [|e ext]; cbn [fst snd].
  - destruct (Ascii.eqb d Path.extsep); cbn [fst snd app]; [done|].
    by rewrite app_nil_r.
  - cbn [app]. by rewrite IH.
Qed.

Lemma splitext_name_app b :
  fst (Path.splitext_name b) ++ snd (Path.splitext_name b) = b.
Proof.
  induction b as [|d b IH]; [done|].
  cbn [Path.splitext_name].
  destruct (Ascii.eqb d Path.extsep).
  - destruct (Path.splitext_name b) as [root ext]. cbn [fst snd app] in *.
    by rewrite IH.
  - apply (rsplit_before_dot_app (d :: b)).
Qed.

Lemma stem_is_a_prefix media_path :
  Str.chars (Path.basename media_path)
  = Str.chars (Path.basename (fst (Path.splitext media_path)))
    ++ Str.chars (snd (Path.splitext media_path)).
Proof.
  unfold Path.basename, Path.splitext.
  destruct (rsplit_after_spec Path.sep (Str.chars media_path))
    as (Heq & Hnot & Hhead).
  destruct (Path.rsplit_after Path.sep (Str.chars media_path)) as [head name].
  cbn [fst snd] in *.
  pose proof (splitext_name_app name) as Hname.
  destruct (Path.splitext_name name) as [root ext]. cbn [fst snd] in *.
  rewrite !chars_of_chars.
  assert (Path.sep ∉ root) as Hroot.
  { intros Hin. apply Hnot. rewrite <- Hname. apply elem_of_app. by left. }
  destruct Hhead as [->|[h ->]].
  - cbn [app]. by rewrite (rsplit_after_none _ _ Hroot).
  - rewrite <- app_assoc. cbn [app].
    by rewrite (rsplit_after_last _ _ _ Hroot).
Qed.

(** X16.  The prefix test of [find_json_file_for_media] accepts every
    entry that starts with the media file's name without extension and
    ends in [.json].  The exact sidecar [{basename}.json] that the first
    test of [find_metadata_file] looks for is one of them, and so is the
    sidecar of any other file whose name merely starts with the same
    text. *)
Theorem prefix_test_accepts_the_exact_sidecar_and_more (media_path : string) :
  (∀ rest,
     MergeMetadata.json_test media_path
       (Path.basename (fst (Path.splitext media_path)) +:+ rest +:+ json_ext)
     = true)
  ∧ MergeMetadata.json_test media_path (Path.basename media_path +:+ json_ext)
    = true
  ∧ (∀ fs,
       (Path.basename media_path +:+ json_ext)
         ∈ os_listdir fs (Path.dirname media_path) →
       MergeMetadata.find_json_file_for_media fs media_path ≠ None).
Proof.
  assert (Hrest : ∀ rest,
            MergeMetadata.json_test media_path
              (Path.basename (fst (Path.splitext media_path))
                 +:+ rest +:+ json_ext) = true).
  { intros rest. unfold MergeMetadata.json_test, MergeMetadata.startswith.
    apply andb_true_iff. split.
    - rewrite chars_app. apply has_prefix_app.
    - rewrite <- append_assoc. apply endswith_app. }
  assert (Hexact :
            MergeMetadata.json_test media_path
              (Path.basename media_path +:+ json_ext) = true).
  { replace (Path.basename media_path)
      with (Path.basename (fst (Path.splitext media_path))
              +:+ snd (Path.splitext media_path)).
    - rewrite append_assoc. apply Hrest.
    - apply chars_inj. by rewrite chars_app, (stem_is_a_prefix media_path). }
  split; [done|]. split; [done|].
  intros fs Hin. unfold MergeMetadata.find_json_file_for_media.
  induction (os_listdir fs (Path.dirname media_path)) as [|file files IH];
    [by apply elem_of_nil in Hin|].
  cbn [MergeMetadata.find_json_loop].
  apply elem_of_cons in Hin as [<-|Hin].
  - by rewrite Hexact.
  - destruct (MergeMetadata.json_test media_path file); [done | by apply IH].
Qed.

Lemma prefix_test_accepts_the_exact_sidecar_and_more_witness :
  MergeMetadata.find_json_file_for_media untitled_fs "albums/a.jpg" ≠ None.
Proof.
  apply (proj2 (proj2 (prefix_test_accepts_the_exact_sidecar_and_more
                         "albums/a.jpg")) untitled_fs).
  vm_compute. apply list_elem_of_In. right. left. reflexivity.
Defined.

(** ** [merge_metadata.py]: EXIF values *)

Lemma int_of_float_in_range x :
  MergeMetadata.int_le_float MergeMetadata.int32_min x
  && MergeMetadata.float_le_int x MergeMetadata.int32_max = true →
  ∃ n, MergeMetadata.int_of_float x = Some n
       ∧ (MergeMetadata.int32_min ≤ n ≤ MergeMetadata.int32_max)%Z.
Proof.
  intros [Hlo Hhi]%andb_true_iff. destruct x as [|negative|m e].
  - done.
  - destruct negative; done.
  - cbn [MergeMetadata.int_le_float MergeMetadata.float_le_int
         MergeMetadata.int_of_float] in *.
    eexists; split; [done|].
    destruct (0 <=? e)%Z eqn:He.
    + apply Z.leb_le in Hlo, Hhi. done.
    + apply Z.leb_le in Hlo, Hhi. apply Z.leb_gt in He.
      assert (0 < 2 ^ (- e))%Z as Hpos by (apply Z.pow_pos_nonneg; lia).
      split.
      * rewrite <- (Z.quot_mul MergeMetadata.int32_min (2 ^ (- e))) by lia.
        by apply Z.quot_le_mono.
      * rewrite <- (Z.quot_mul MergeMetadata.int32_max (2 ^ (- e))) by lia.
        by apply Z.quot_le_mono.
Qed.

(** X17.  What [validate_exif_value] lets through is an integer of the
    signed 32-bit range, a boolean or bytes, never text, a float or a
    tuple as such, and validating it again returns it unchanged and logs
    nothing.  A float between the two bounds is finite and is replaced by
    its integer part; text is replaced by its UTF-8 bytes.  The refusals
    are an integer outside the range, a float that is not between the
    bounds (an infinity and not-a-number among them) and a value of an
    unnamed type, each with one warning of its own. *)
Theorem validated_exif_values (value : MergeMetadata.exif_value) :
  (∀ w, fst (MergeMetadata.validate_exif_value value) = Some w →
        match w with
        | MergeMetadata.EInt n =>
            (MergeMetadata.int32_min ≤ n ≤ MergeMetadata.int32_max)%Z
        | MergeMetadata.EBool _ | MergeMetadata.EBytes _ => True
        | _ => False
        end
        ∧ MergeMetadata.validate_exif_value w = (Some w, []))
  ∧ (∀ x shown,
       value = MergeMetadata.EFloat x shown →
       MergeMetadata.int_le_float MergeMetadata.int32_min x
       && MergeMetadata.float_le_int x MergeMetadata.int32_max = true →
       ∃ n, MergeMetadata.int_of_float x = Some n
            ∧ MergeMetadata.validate_exif_value value
              = (Some (MergeMetadata.EInt n), []))
  ∧ (∀ s, value = MergeMetadata.EStr s →
          MergeMetadata.validate_exif_value value
          = (Some (MergeMetadata.EBytes (Str.encode_utf8 s)), []))
  ∧ (fst (MergeMetadata.validate_exif_value value) = None →
     (∃ n, value = MergeMetadata.EInt n
           ∧ ¬ (MergeMetadata.int32_min ≤ n ≤ MergeMetadata.int32_max)%Z
           ∧ snd (MergeMetadata.validate_exif_value value)
             = [MergeMetadata.Invalid_integer n])
     ∨ (∃ x shown,
          value = MergeMetadata.EFloat x shown
          ∧ MergeMetadata.int_le_float MergeMetadata.int32_min x
            && MergeMetadata.float_le_int x MergeMetadata.int32_max = false
          ∧ snd (MergeMetadata.validate_exif_value value)
            = [MergeMetadata.Invalid_float shown])
     ∨ (∃ shown, value = MergeMetadata.EOther shown
                 ∧ snd (MergeMetadata.validate_exif_value value)
                   = [MergeMetadata.Unsupported_type])).
Proof.
  split; [|split; [|split]].
  - intros w. destruct value as [b|n|x shown|s|b|items|shown];
      cbn [MergeMetadata.validate_exif_value fst].
    + by intros [= <-].
    + destruct ((MergeMetadata.int32_min <=? n)%Z
                && (n <=? MergeMetadata.int32_max)%Z) eqn:E;
        cbn [fst]; [|done].
      intros [= <-]. cbn [MergeMetadata.validate_exif_value]. rewrite E.
      split; [|done]. apply andb_true_iff in E as [E1 E2].
      apply Z.leb_le in E1, E2. done.
    + destruct (MergeMetadata.int_le_float MergeMetadata.int32_min x
                && MergeMetadata.float_le_int x MergeMetadata.int32_max) eqn:E;
        cbn [fst]; [|done].
      destruct (int_of_float_in_range x E) as (n & -> & Hlo & Hhi).
      cbn [option_map]. intros [= <-]. split; [done|].
      cbn [MergeMetadata.validate_exif_value].
      apply Z.leb_le in Hlo, Hhi. by rewrite Hlo, Hhi.
    + by intros [= <-].
    + by intros [= <-].
    + by intros [= <-].
    + done.
  - intros x shown -> E. cbn [MergeMetadata.validate_exif_value]. rewrite E.
    destruct (int_of_float_in_range x E) as (n & -> & _). by exists n.
  - by intros s ->.
  - destruct value as [b|n|x shown|s|b|items|shown];
      cbn [MergeMetadata.validate_exif_value fst snd]; try done.
    + destruct ((MergeMetadata.int32_min <=? n)%Z
                && (n <=? MergeMetadata.int32_max)%Z) eqn:E;
        cbn [fst snd]; [done|].
      intros _. left. exists n. split; [done|]. split; [|done].
      intros [H1 H2]. apply Z.leb_le in H1, H2. by rewrite H1, H2 in E.
    + destruct (MergeMetadata.int_le_float MergeMetadata.int32_min x
                && MergeMetadata.float_le_int x MergeMetadata.int32_max) eqn:E;
        cbn [fst snd].
      * destruct (int_of_float_in_range x E) as (n & -> & _). done.
      * intros _. right. left. by exists x, shown.
    + intros _. right. right. by exists shown.
Qed.

Lemma validated_exif_values_witness :
  ∃ n, MergeMetadata.int_of_float (MergeMetadata.FFinite (-5) (-1)) = Some n
       ∧ MergeMetadata.validate_exif_value
           (MergeMetadata.EFloat (MergeMetadata.FFinite (-5) (-1)) "-2.5")
         = (Some (MergeMetadata.EInt n), []).
Proof.
  apply (proj1 (proj2 (validated_exif_values
                         (MergeMetadata.EFloat
                            (MergeMetadata.FFinite (-5) (-1)) "-2.5")))
           (MergeMetadata.FFinite (-5) (-1)) "-2.5").
  - reflexivity.
  - reflexivity.
Defined.

(** ** [merge_metadata.py]: cleaning an EXIF dictionary *)

Lemma del_tag_idemp tag tags :
  MergeMetadata.del_tag tag (MergeMetadata.del_tag tag tags)
  = MergeMetadata.del_tag tag tags.
Proof.
  unfold MergeMetadata.del_tag. induction tags as [|e tags IH]; cbn; [done|].
  destruct (negb (fst e =? tag)%Z) eqn:E; cbn; [|done]. by rewrite E, IH.
Qed.

Lemma del_tag_absent tag tags :
  existsb (fun e => (fst e =? tag)%Z) tags = false →
  MergeMetadata.del_tag tag tags = tags.
Proof.
  unfold MergeMetadata.del_tag. induction tags as [|e tags IH]; cbn; [done|].
  intros [He Ht]%orb_false_iff. by rewrite He, IH.
Qed.

Lemma clean_tags_result ifd entries tags lg :
  fst (fold_left (MergeMetadata.clean_tag ifd) entries (tags, lg))
  = if existsb (fun e => (fst e =? MergeMetadata.scene_type)%Z) entries
    then MergeMetadata.del_tag MergeMetadata.scene_type tags
    else tags.
Proof.
  revert tags lg. induction entries as [|e entries IH]; intros tags lg;
    cbn [fold_left existsb]; [done|].
  unfold MergeMetadata.clean_tag at 2.
  destruct (fst e =? MergeMetadata.scene_type)%Z eqn:E; cbn [orb].
  - apply Z.eqb_eq in E. rewrite E, IH.
    destruct (existsb _ entries); [apply del_tag_idemp | done].
  - apply IH.
Qed.

Lemma clean_ifds_result entries done lg :
  fst (fold_left MergeMetadata.clean_ifd entries (done, lg))
  = done
    ++ map (fun e => (fst e,
                      MergeMetadata.del_tag MergeMetadata.scene_type (snd e)))
         entries.
Proof.
  revert done lg. induction entries as [|e entries IH]; intros done lg;
    cbn [fold_left map]; [by rewrite app_nil_r|].
  unfold MergeMetadata.clean_ifd at 2.
  pose proof (clean_tags_result (fst e) (snd e) (snd e) lg) as Htags.
  destruct (fold_left (MergeMetadata.clean_tag (fst e)) (snd e) (snd e, lg))
    as [tags lg'].
  cbn [fst] in Htags. rewrite IH, <- app_assoc. cbn [app]. do 3 f_equal.
  rewrite Htags.
  destruct (existsb (fun e0 => (fst e0 =? MergeMetadata.scene_type)%Z) (snd e))
    eqn:E; [done|].
  symmetry. by apply del_tag_absent.
Qed.

(** X18.  Cleaning an EXIF dictionary after its thumbnail was removed, as
    [update_photo_metadata] does, deletes the tag 41729 from every image
    file directory and nothing else: the result of the validation of the
    other values is not looked at, so every other tag keeps its entry
    and its value, valid or not.  Cleaning a second time changes
    nothing. *)
Theorem cleaning_only_drops_the_scene_type (d : MergeMetadata.exif_dict) :
  fst (MergeMetadata.clean_exif_dict (MergeMetadata.remove_thumbnail d))
  = {| MergeMetadata.ifds :=
         map (fun e =>
                (fst e, MergeMetadata.del_tag MergeMetadata.scene_type (snd e)))
           (MergeMetadata.ifds d);
       MergeMetadata.thumbnail := None |}
  ∧ (∀ name tags tag value,
       (name, tags) ∈ MergeMetadata.ifds d → (tag, value) ∈ tags →
       tag ≠ MergeMetadata.scene_type →
       ∃ tags',
         (name, tags')
           ∈ MergeMetadata.ifds
               (fst (MergeMetadata.clean_exif_dict
                       (MergeMetadata.remove_thumbnail d)))
         ∧ (tag, value) ∈ tags')
  ∧ fst (MergeMetadata.clean_exif_dict
           (fst (MergeMetadata.clean_exif_dict
                   (MergeMetadata.remove_thumbnail d))))
    = fst (MergeMetadata.clean_exif_dict (MergeMetadata.remove_thumbnail d)).
Proof.
  assert (Hclean : ∀ d',
            fst (MergeMetadata.clean_exif_dict d')
            = {| MergeMetadata.ifds :=
                   map (fun e =>
                          (fst e,
                           MergeMetadata.del_tag MergeMetadata.scene_type
                             (snd e)))
                     (MergeMetadata.ifds d');
                 MergeMetadata.thumbnail := MergeMetadata.thumbnail d' |}).
  { intros d'. unfold MergeMetadata.clean_exif_dict.
    pose proof (clean_ifds_result (MergeMetadata.ifds d') [] []) as H.
    destruct (fold_left MergeMetadata.clean_ifd (MergeMetadata.ifds d') ([], []))
      as [cleaned lg].
    cbn [fst app] in *. by rewrite H. }
  split; [|split].
  - by rewrite Hclean.
  - intros name tags tag value Hifd Htag Hne. rewrite Hclean.
    cbn [MergeMetadata.ifds MergeMetadata.remove_thumbnail].
    exists (MergeMetadata.del_tag MergeMetadata.scene_type tags). split.
    + apply list_elem_of_In, in_map_iff. exists (name, tags).
      split; [done | by apply list_elem_of_In].
    + unfold MergeMetadata.del_tag.
      apply list_elem_of_In, filter_In. split; [by apply list_elem_of_In|].
      cbn [fst]. apply negb_true_iff, Z.eqb_neq. done.
  - rewrite !Hclean.
    cbn [MergeMetadata.ifds MergeMetadata.thumbnail
         MergeMetadata.remove_thumbnail].
    f_equal. rewrite map_map. apply map_ext. intros e. cbn [fst snd].
    by rewrite del_tag_idemp.
Qed.

Lemma cleaning_only_drops_the_scene_type_witness :
  let d :=
    {| MergeMetadata.ifds :=
         [("Exif", [(41729%Z, MergeMetadata.EBytes "x");
                    (37380%Z, MergeMetadata.EInt 4294967296%Z)])];
       MergeMetadata.thumbnail := Some None |} in
  ∃ tags',
    ("Exif", tags')
      ∈ MergeMetadata.ifds
          (fst (MergeMetadata.clean_exif_dict
                  (MergeMetadata.remove_thumbnail d)))
    ∧ (37380%Z, MergeMetadata.EInt 4294967296%Z) ∈ tags'.
Proof.
  apply (proj1 (proj2 (cleaning_only_drops_the_scene_type
                         {| MergeMetadata.ifds :=
                              [("Exif",
                                [(41729%Z, MergeMetadata.EBytes "x");
                                 (37380%Z, MergeMetadata.EInt 4294967296%Z)])];
                            MergeMetadata.thumbnail := Some None |}))
           "Exif"
           [(41729%Z, MergeMetadata.EBytes "x");
            (37380%Z, MergeMetadata.EInt 4294967296%Z)]
           37380%Z (MergeMetadata.EInt 4294967296%Z)).
  - constructor.
  - right. constructor.
  - discriminate.
Defined.

(** ** [merge_metadata.py]: the counters of a directory *)

Section Counters.

Context (world : Type) (view : world → filesystem)
  (update_photo_metadata : string → pyval → pyval → world → bool * world)
  (update_video_metadata : string → pyval → string → world → bool * world)
  (root processed_folder : string) (directory_photo_taken_time : pyval).

Local Abbreviation step :=
  (MergeMetadata.process_file world view update_photo_metadata
     update_video_metadata root processed_folder directory_photo_taken_time).

Lemma process_file_counts w c file :
  let c' := snd (step (w, c) file) in
  let media := if Str.endswith file json_ext then 0 else 1 in
  MergeMetadata.initial_file_count c'
  = MergeMetadata.initial_file_count c + media
  ∧ MergeMetadata.updated_file_count c'
    + MergeMetadata.unprocessed_file_count c'
    = MergeMetadata.updated_file_count c
      + MergeMetadata.unprocessed_file_count c + media
  ∧ length (MergeMetadata.updated_files c')
    - MergeMetadata.updated_file_count c'
    = length (MergeMetadata.updated_files c)
      - MergeMetadata.updated_file_count c
  ∧ (length (MergeMetadata.updated_files c)
     = MergeMetadata.updated_file_count c →
     length (MergeMetadata.updated_files c')
     = MergeMetadata.updated_file_count c').
Proof.
  unfold MergeMetadata.process_file.
  destruct (Str.endswith file json_ext); cbn [negb snd].
  { repeat split; lia. }
  destruct (match
              MergeMetadata.find_json_file_for_media (view w)
                (Path.join root file)
            with
            | Some found =>
                if negb (String.eqb found EmptyString)
                then MergeMetadata.get_metadata_from_json (view w) found
                else (PyDict [], [])
            | None => (PyDict [], [])
            end) as [metadata lines].
  destruct (Py.truthy metadata || Py.truthy directory_photo_taken_time).
  2: { cbn. rewrite ?length_app. cbn. repeat split; lia. }
  destruct (MergeMetadata.lower_endswith_any file MergeMetadata.photo_suffixes).
  { destruct (update_photo_metadata _ _ _ _) as [[] w'].
    - destruct (Str.endswith (Str.lower (Path.join root file)) ".nef");
        cbn; rewrite ?length_app; cbn; repeat split; lia.
    - cbn. repeat split; lia. }
  destruct (MergeMetadata.lower_endswith_any file MergeMetadata.video_suffixes).
  { destruct (update_video_metadata _ _ _ _) as [[] w'];
      cbn; rewrite ?length_app; cbn; repeat split; lia. }
  destruct (Str.endswith (Str.lower file) ".gif");
    cbn; rewrite ?length_app; cbn; repeat split; lia.
Qed.

Lemma process_files_counts files w c :
  let c' := snd (fold_left step files (w, c)) in
  let media :=
    length (List.filter (fun file => negb (Str.endswith file json_ext)) files)
  in
  MergeMetadata.initial_file_count c'
  = MergeMetadata.initial_file_count c + media
  ∧ MergeMetadata.updated_file_count c'
    + MergeMetadata.unprocessed_file_count c'
    = MergeMetadata.updated_file_count c
      + MergeMetadata.unprocessed_file_count c + media
  ∧ (length (MergeMetadata.updated_files c)
     = MergeMetadata.updated_file_count c →
     length (MergeMetadata.updated_files c')
     = MergeMetadata.updated_file_count c').
Proof.
  revert w c. induction files as [|file files IH]; intros w c;
    cbn [fold_left List.filter].
  - cbn. repeat split; lia.
  - destruct (process_file_counts w c file) as (H1 & H2 & _ & H4).
    destruct (step (w, c) file) as [w1 c1]. cbn [snd] in *.
    destruct (IH w1 c1) as (I1 & I2 & I3).
    cbv zeta in *. rewrite I1, I2, H1.
    destruct (Str.endswith file json_ext); cbn [negb length];
      repeat split; try lia; intros Hlen; by apply I3, H4.
Qed.

(** X19.  The counters that [merge_metadata] keeps for a directory add
    up, whatever the two writers answer: every file that is not a
    sidecar is counted once as initial and once as either updated or
    unprocessed, and the list of updated files has one path per updated
    file. *)
Theorem counters_of_a_directory_add_up (files : list string) (w : world) :
  let c :=
    snd (MergeMetadata.process_files world view update_photo_metadata
           update_video_metadata root processed_folder
           directory_photo_taken_time files w) in
  MergeMetadata.initial_file_count c
  = MergeMetadata.updated_file_count c
    + MergeMetadata.unprocessed_file_count c
  ∧ length (MergeMetadata.updated_files c)
    = MergeMetadata.updated_file_count c
  ∧ MergeMetadata.initial_file_count c
    = length (List.filter (fun file => negb (Str.endswith file json_ext))
                files).
Proof.
  unfold MergeMetadata.process_files.
  destruct (process_files_counts files w MergeMetadata.no_counts)
    as (H1 & H2 & H3).
  cbv zeta in *. cbn in H1, H2, H3.
  repeat split; [lia | by apply H3 | done].
Qed.

(** X20.  Only photos and videos reach a writer.  A sidecar is passed
    over without a trace; any other file whose name has neither a photo
    nor a video suffix leaves the storage as it was, and is counted as
    updated exactly when its suffix is [.gif] and there is a non-empty
    sidecar or a timestamp for the directory. *)
Theorem other_files_are_not_written (w : world) (c : MergeMetadata.counters)
  (file : string) :
  (Str.endswith file json_ext = true → step (w, c) file = (w, c))
  ∧ (MergeMetadata.lower_endswith_any file MergeMetadata.photo_suffixes
     = false →
     MergeMetadata.lower_endswith_any file MergeMetadata.video_suffixes
     = false →
     fst (step (w, c) file) = w
     ∧ (Str.endswith file json_ext = false →
        Str.endswith (Str.lower file) ".gif" = false →
        MergeMetadata.updated_file_count (snd (step (w, c) file))
        = MergeMetadata.updated_file_count c
        ∧ MergeMetadata.unprocessed_file_count (snd (step (w, c) file))
          = S (MergeMetadata.unprocessed_file_count c))).
Proof.
  unfold MergeMetadata.process_file. split.
  - by intros ->.
  - intros -> ->.
    destruct (Str.endswith file json_ext); cbn [negb]; [by split|].
    destruct (match
                MergeMetadata.find_json_file_for_media (view w)
                  (Path.join root file)
              with
              | Some found =>
                  if negb (String.eqb found EmptyString)
                  then MergeMetadata.get_metadata_from_json (view w) found
                  else (PyDict [], [])
              | None => (PyDict [], [])
              end) as [metadata lines].
    destruct (Py.truthy metadata || Py.truthy directory_photo_taken_time);
      [|by split].
    destruct (Str.endswith (Str.lower file) ".gif"); split; try done.
Qed.

End Counters.

Lemma other_files_are_not_written_witness :
  MergeMetadata.process_file unit (fun _ => untitled_fs)
    (fun _ _ _ w => (true, w)) (fun _ _ _ w => (true, w))
    "albums" "out" PyNone (tt, MergeMetadata.no_counts) "a.jpg.json"
  = (tt, MergeMetadata.no_counts).
Proof.
  apply (proj1 (other_files_are_not_written unit (fun _ => untitled_fs)
                  (fun _ _ _ w => (true, w)) (fun _ _ _ w => (true, w))
                  "albums" "out" PyNone tt MergeMetadata.no_counts
                  "a.jpg.json")).
  reflexivity.
Defined.
